(** * Simulation-trace validation of the bundler: [parseScannerResult.ts]

    A shallow embedding of [packages/bundler/src/parseScannerResult.ts]
    (call-stack reconstruction, entity slot resolution, the opcode and
    storage-access policy and the result aggregation), followed by the
    properties of that code.

    Conventions of the embedding:
    - a JavaScript object read through [Object.keys], [Object.entries] or
      [obj[key]] is an association list in insertion order ([JSObject]);
    - an object the code fills in by assignment ([entitySlots],
      [storageMap]) is a [gmap] keyed by strings;
    - a [Set<string>] is the list of its members in insertion order;
    - [undefined] is [None];
    - a function that can throw returns a [Result]: [Throw (Error _)] for
      [new Error] and for an exception of a library, [Throw (RpcError _ _ _)]
      for the policy violations raised through [requireCond]. *)

From Stdlib Require Import ZArith Ascii String List Bool Lia.
From stdpp Require Import base option list strings pretty gmap.

Local Open Scope string_scope.
Local Open Scope list_scope.
Local Open Scope Z_scope.

(** ** JavaScript strings and objects *)

Module JS.

Definition lower_ascii (c : ascii) : ascii :=
  let n := nat_of_ascii c in
  if ((65 <=? n) && (n <=? 90))%nat then ascii_of_nat (n + 32) else c.

(** [String.prototype.toLowerCase], on the ASCII strings the code handles
    (hexadecimal addresses). *)
Fixpoint toLowerCase (s : string) : string :=
  match s with
  | EmptyString => EmptyString
  | String c r => String (lower_ascii c) (toLowerCase r)
  end.

(** [s.startsWith(p)] *)
Definition startsWith (s p : string) : bool := String.prefix p s.

(** [s.match(/needle/) != null] for a regular expression that is a plain
    word: [needle] occurs somewhere in [s]. *)
Fixpoint contains (needle s : string) : bool :=
  String.prefix needle s ||
  match s with
  | EmptyString => false
  | String _ r => contains needle r
  end.

(** [a === b] on strings. *)
Definition seq (a b : string) : bool := String.eqb a b.

(** [a === b] where [a] may be [undefined] and [b] is a string. *)
Definition seq_opt (a : option string) (b : string) : bool :=
  match a with
  | Some x => String.eqb x b
  | None => false
  end.

(** [`${x}`] for a value that may be [undefined]. *)
Definition tpl (x : option string) : string :=
  match x with
  | Some s => s
  | None => "undefined"
  end.

(** An object with string keys, in insertion order. *)
Definition JSObject (V : Type) : Type := list (string * V).

Definition keys {V} (o : JSObject V) : list string := map fst o.
Definition values {V} (o : JSObject V) : list V := map snd o.

(** [o[k]] *)
Fixpoint get {V} (o : JSObject V) (k : string) : option V :=
  match o with
  | [] => None
  | (k', v) :: r => if String.eqb k' k then Some v else get r k
  end.

(** [arr.includes(x)] on strings. *)
Definition includes (l : list string) (x : string) : bool :=
  existsb (fun y => String.eqb y x) l.

End JS.

(** ** The part of ethers' utilities the code calls *)

Module Ethers.

Definition digit_of (hex : bool) (c : ascii) : option Z :=
  let n := Z.of_nat (nat_of_ascii c) in
  if (48 <=? n) && (n <=? 57) then Some (n - 48)
  else if hex && (97 <=? n) && (n <=? 102) then Some (n - 87)
  else if hex && (65 <=? n) && (n <=? 70) then Some (n - 55)
  else None.

(** The value of a string of digits in the given base; [None] when a
    character is not a digit. *)
Fixpoint digits_value (hex : bool) (acc : Z) (s : string) : option Z :=
  match s with
  | EmptyString => Some acc
  | String c r =>
      match digit_of hex c with
      | Some d => digits_value hex ((if hex then 16 else 10) * acc + d) r
      | None => None
      end
  end.

(** [isHexString(s)]: [/^0x[0-9A-Fa-f]*$/] *)
Definition isHexString (s : string) : bool :=
  match s with
  | String "0" (String "x" r) =>
      match digits_value true 0 r with Some _ => true | None => false end
  | _ => false
  end.

(** [hexZeroPad(value, length)] on a string: throws ([None]) when [value]
    is not a hex string or is longer than [length] bytes; otherwise puts
    zeros after the [0x] until the string has [2 * length + 2]
    characters. *)
Definition hexZeroPad (value : string) (len : nat) : option string :=
  if isHexString value then
    if (2 * len + 2 <? String.length value)%nat then None
    else
      Some ("0x" +:+ String.concat "" (repeat "0" (2 * len + 2 - String.length value))
                 +:+ String.substring 2 (String.length value - 2) value)
  else None.

(** What [BigNumber.from] accepts: a number or a string. *)
Inductive BigNumberish : Type :=
| BNnumber (n : Z)
| BNstring (s : string).

Definition unsigned_string_value (s : string) : option Z :=
  match s with
  | String "0" (String "x" (String c r)) => digits_value true 0 (String c r)
  | String c r => digits_value false 0 (String c r)
  | EmptyString => None
  end.

(** The integer a [BigNumber] made from [v] has in [lt], [gte] and [add]:
    that of a decimal string, of a hexadecimal string with the prefix [0x],
    or of a safe integer; [None] when [BigNumber.from(v)] throws, and for a
    string with the prefix [0X], which [from] lets through but which the
    comparisons cannot read as a number. *)
Definition BigNumber_value (v : BigNumberish) : option Z :=
  match v with
  | BNnumber n =>
      if (n <? 9007199254740991) && (-9007199254740991 <? n) then Some n else None
  | BNstring (String "-" r) => Z.opp <$> unsigned_string_value r
  | BNstring s => unsigned_string_value s
  end.

(** What [BigNumber.from] takes without throwing: a string that matches
    [/^-?0x[0-9a-f]+$/i] (the prefix may be [0X]) or [/^-?[0-9]+$/], or a
    safe integer. *)
Definition unsigned_string_accepted (s : string) : bool :=
  match unsigned_string_value s with
  | Some _ => true
  | None =>
      match s with
      | String "0" (String "X" (String c r)) =>
          match digits_value true 0 (String c r) with
          | Some _ => true
          | None => false
          end
      | _ => false
      end
  end.

Definition BigNumber_accepts (v : BigNumberish) : bool :=
  match v with
  | BNnumber n => (n <? 9007199254740991) && (-9007199254740991 <? n)
  | BNstring (String "-" r) => unsigned_string_accepted r
  | BNstring s => unsigned_string_accepted s
  end.

(** A [BigNumber] is an object: [ref] tells two objects apart, [of] is what
    it was made from. *)
Record BigNumber : Type := {
  bn_ref : nat;
  bn_of : BigNumberish
}.

(** [BigNumber.from(v)] makes a new object each time it is called on a
    number or a string; [next] is the next free reference. *)
Definition BigNumber_from (v : BigNumberish) (next : nat) : option (BigNumber * nat) :=
  if BigNumber_accepts v
  then Some ({| bn_ref := next; bn_of := v |}, S next)
  else None.

(** [a !== b] on two objects compares the references, not what they hold. *)
Definition strict_neq (a b : BigNumber) : bool :=
  negb (Nat.eqb (bn_ref a) (bn_ref b)).

End Ethers.

(** ** Exceptions *)

(** [ValidationErrors], of which this file uses one member. *)
Inductive ValidationErrors : Type :=
| OpcodeValidation.

(** What a [throw] carries: a plain [Error] (an internal defect, or an
    exception of a library), or the [RpcError] of a policy violation with
    its message, its code and the optional [{ [entityTitle]: addr }]. *)
Inductive Exn : Type :=
| Error (message : string)
| RpcError (message : string) (code : ValidationErrors)
           (data : option (string * option string)).

Inductive Result (A : Type) : Type :=
| Ok (a : A)
| Throw (e : Exn).

Arguments Ok {A} a.
Arguments Throw {A} e.

#[global] Instance Result_ret : MRet Result := fun _ a => Ok a.
#[global] Instance Result_bind : MBind Result := fun _ _ f m =>
  match m with
  | Ok a => f a
  | Throw e => Throw e
  end.

(** A library call that throws becomes a plain [Error]. *)
Definition orThrow {A} (o : option A) (message : string) : Result A :=
  match o with
  | Some a => Ok a
  | None => Throw (Error message)
  end.

(** [l.forEach(f)] where [f] can throw: the first exception ends the loop. *)
Fixpoint forEach {A} (l : list A) (f : A -> Result unit) : Result unit :=
  match l with
  | [] => Ok tt
  | x :: r => f x ;; forEach r f
  end.

(** A [forEach] whose body updates a captured variable. *)
Fixpoint forEachS {A S} (l : list A) (f : S -> A -> Result S) (s : S) : Result S :=
  match l with
  | [] => Ok s
  | x :: r => s' ← f s x; forEachS r f s'
  end.

(** Modelled from the spec: [requireCond] of [./utils], which is not among
    the sources. Every rule of the policy engine is written
    [requireCond(condition that must hold, message, code, data)], and the
    forbidden-access rule is [requireCond(false, ...)]: it raises the policy
    violation when the condition is false. *)
Definition requireCond (cond : bool) (message : string) (code : ValidationErrors)
    (data : option (string * option string)) : Result unit :=
  if cond then Ok tt else Throw (RpcError message code data).

(** Modelled from the spec: [toBytes32] of [./modules/moduleUtils], which is
    not among the sources: left-pad the address to the 32 bytes of a hash
    input word. *)
Definition toBytes32 (b : string) : option string :=
  Ethers.hexZeroPad b 32.

(** ** Data model *)

Import JS Ethers.

Record StakeInfo : Type := {
  addr : string;
  stake : BigNumberish;
  unstakeDelaySec : BigNumberish
}.

Record UserOperation : Type := {
  sender : string;
  initCode : string
}.

(** One entry of [calls]: a call opcode with its target ([MethodInfo]), or
    the [RETURN]/[REVERT] that ends a call, with its [data] ([ExitInfo]).
    The frame [{ type: 'top', method: 'validateUserOp' }] the reconstruction
    makes up has neither [to], [from] nor [value]. *)
Record CallEvent : Type := {
  ev_type : string;
  ev_to : option string;
  ev_from : option string;
  ev_method : string;
  ev_value : option BigNumberish;
  ev_data : string
}.

Record AccessInfo : Type := {
  reads : JSObject string;
  writes : JSObject Z
}.

Record TopLevelCallInfo : Type := {
  topLevelMethodSig : string;
  opcodes : JSObject Z;
  access : JSObject AccessInfo;
  contractSize : JSObject Z;
  oog : option bool;
  calls : list CallEvent
}.

Record BundlerCollectorReturn : Type := {
  callsFromEntryPoint : list TopLevelCallInfo;
  keccak : list string
}.

Record ValidationResult : Type := {
  factoryInfo : option StakeInfo;
  senderInfo : option StakeInfo;
  paymasterInfo : option StakeInfo
}.

(** A value of type [any] the reconstruction stores in [return] or
    [revert]: a string (the raw payload, or [len=...]) or a decoded object
    with named fields. *)
Inductive AnyValue : Type :=
| Raw (s : string)
| Decoded (fields : JSObject string).

(** [v?.context] *)
Definition context_of (v : option AnyValue) : option string :=
  match v with
  | Some (Decoded fields) => get fields "context"
  | _ => None
  end.

Record CallEntry : Type := {
  call_to : option string;
  call_from : option string;
  call_type : string;
  call_method : option string;
  call_revert : option AnyValue;
  call_return : option AnyValue;
  call_value : option BigNumberish
}.

Record FunctionFragment : Type := {
  fragment_name : string
}.

(** What the code takes from its libraries without this file looking inside:
    the hash function, the [Interface] built from the six ABIs ([xfaces]),
    the selectors of the three methods the entry point calls, and
    [JSON.stringify], which only fills in messages. A call of [xfaces] or
    of [keccak256] that throws is [None]: the hash throws on a string that
    is not hexadecimal data of even length. *)
Class Externals : Type := {
  keccak256 : string -> option string;
  xfaces_getFunction : string -> option FunctionFragment;
  xfaces_parseError : string -> option (JSObject string);
  xfaces_decodeFunctionResult : FunctionFragment -> string -> option (JSObject string);
  getSighash : string -> string;
  JSON_stringify : forall A : Type, A -> string
}.

(** [find] for a predicate that allocates objects and can throw. *)
Fixpoint findS {A} (p : A -> nat -> Result (bool * nat)) (l : list A) (next : nat)
    : Result (option A) :=
  match l with
  | [] => Ok None
  | x :: r =>
      '(b, next') ← p x next;
      if b : bool then Ok (Some x) else findS p r next'
  end.

Definition isSome {A} (o : option A) : bool :=
  match o with Some _ => true | None => false end.

Definition isNone {A} (o : option A) : bool := negb (isSome o).

Section Scanner.

Context `{Externals}.

(** ** parseCallStack *)

Definition top_frame : CallEvent :=
  {| ev_type := "top"; ev_to := None; ev_from := None;
     ev_method := "validateUserOp"; ev_value := None; ev_data := "" |}.

(** The body of the [forEach] of [parseCallStack], on the pair of [out]
    and [stack]. [push] appends; [splice(-1)] takes the last element. *)
Definition callStep (st : list CallEntry * list CallEvent) (c : CallEvent)
    : list CallEntry * list CallEvent :=
  let '(out, stack) := st in
  if contains "REVERT" (ev_type c) || contains "RETURN" (ev_type c) then
    let top := default top_frame (last stack) in
    let stack := removelast stack in
    let returnData := ev_data c in
    if contains "CREATE" (ev_type top) then
      (out ++ [ {| call_to := ev_to top; call_from := ev_from top;
                   call_type := ev_type top; call_method := Some "";
                   call_revert := None;
                   call_return :=
                     Some (Raw ("len=" +:+ pretty (String.length returnData)));
                   call_value := None |} ], stack)
    else
      (* [None]: [getFunction] threw and [callCatch] gave [top.method] back *)
      let method := xfaces_getFunction (ev_method top) in
      if seq (ev_type c) "REVERT" then
        let parsedError :=
          match xfaces_parseError returnData with
          | Some e => Decoded e
          | None => Raw returnData
          end in
        (out ++ [ {| call_to := ev_to top; call_from := ev_from top;
                     call_type := ev_type top;
                     call_method := fragment_name <$> method;
                     call_revert := Some parsedError;
                     call_return := None;
                     call_value := ev_value top |} ], stack)
      else
        let ret :=
          match method with
          | Some m =>
              match xfaces_decodeFunctionResult m returnData with
              | Some r => Decoded r
              | None => Raw returnData
              end
          | None => Raw returnData
          end in
        (out ++ [ {| call_to := ev_to top; call_from := ev_from top;
                     call_type := ev_type top;
                     call_method :=
                       Some (match method with
                             | Some m => fragment_name m
                             | None => ev_method top
                             end);
                     call_revert := None;
                     call_return := Some ret;
                     call_value := None |} ], stack)
  else (out, stack ++ [c]).

Definition parseCallStack (tracerResults : BundlerCollectorReturn) : list CallEntry :=
  let calls := flat_map calls (callsFromEntryPoint tracerResults) in
  fst (fold_left callStep
         (List.filter (fun x => negb (startsWith (ev_type x) "depth")) calls)
         ([], [])).

(** ** parseEntitySlots *)

(** [set.add(x)] *)
Definition set_add (s : list string) (x : string) : list string :=
  if includes s x then s else s ++ [x].

Definition entitySlotsStep (k : string) (entitySlots : gmap string (list string))
    (info : option StakeInfo) : Result (gmap string (list string)) :=
  match info with
  | None => Ok entitySlots
  | Some info =>
      let addr := toLowerCase (addr info) in
      addrPadded ← orThrow (toBytes32 addr) "invalid hex string";
      let entitySlots :=
        match entitySlots !! addr with
        | None => <[addr := []]> entitySlots
        | Some _ => entitySlots
        end in
      let currentEntitySlots := default [] (entitySlots !! addr) in
      if startsWith k addrPadded
      then
        slot ← orThrow (keccak256 k) "invalid arrayify value";
        Ok (<[addr := set_add currentEntitySlots slot]> entitySlots)
      else Ok entitySlots
  end.

Definition parseEntitySlots (stakeInfoEntities : JSObject (option StakeInfo))
    (keccak : list string) : Result (gmap string (list string)) :=
  forEachS keccak
    (fun entitySlots k =>
       forEachS (values stakeInfoEntities) (entitySlotsStep k) entitySlots)
    ∅.

(** ** The policy engine *)

Definition bannedOpCodes : list string :=
  ["GASPRICE"; "GASLIMIT"; "DIFFICULTY"; "TIMESTAMP"; "BASEFEE"; "BLOCKHASH";
   "NUMBER"; "SELFBALANCE"; "BALANCE"; "ORIGIN"; "GAS"; "CREATE"; "COINBASE";
   "SELFDESTRUCT"; "RANDOM"; "PREVRANDAO"].

(** method-signature for calls from entryPoint *)
Definition callsFromEntryPointMethodSigs : JSObject string :=
  [("factory", getSighash "createSender");
   ("account", getSighash "validateUserOp");
   ("paymaster", getSighash "validatePaymasterUserOp")].

(** The predicate of the first [callStack.find]. *)
Definition isCallIntoEntryPoint (entryPointAddress : string) (call : CallEntry) : bool :=
  seq_opt (call_to call) entryPointAddress &&
  negb (seq_opt (call_from call) entryPointAddress) &&
  (negb (seq_opt (call_method call) "0x") &&
   negb (seq_opt (call_method call) "depositTo")).

Definition checkCallIntoEntryPoint (entryPointAddress : string)
    (callStack : list CallEntry) : Result unit :=
  let callInfoEntryPoint := find (isCallIntoEntryPoint entryPointAddress) callStack in
  requireCond (isNone callInfoEntryPoint)
    ("illegal call into EntryPoint during validation "
       +:+ tpl (callInfoEntryPoint ≫= call_method))
    OpcodeValidation None.

(** The predicate of the second [callStack.find]:
    [call.to !== entryPointAddress &&
     BigNumber.from(call.value ?? 0) !== BigNumber.from(0)]. *)
Definition isCallWithValue (entryPointAddress : string) (call : CallEntry)
    (next : nat) : Result (bool * nat) :=
  if negb (seq_opt (call_to call) entryPointAddress) then
    '(a, next) ← orThrow (BigNumber_from (default (BNnumber 0) (call_value call)) next)
                   "invalid BigNumber value";
    '(b, next) ← orThrow (BigNumber_from (BNnumber 0) next) "invalid BigNumber value";
    Ok (strict_neq a b, next)
  else Ok (false, next).

Definition checkCallWithValue (entryPointAddress : string)
    (callStack : list CallEntry) : Result unit :=
  found ← findS (isCallWithValue entryPointAddress) callStack 0%nat;
  requireCond (isSome found) "May not may CALL with value" OpcodeValidation None.

(** return true if the given slot is associated with the given address,
    given the known keccak operations *)
Fixpoint withinStructure (k : list string) (slotN : Z) : Result bool :=
  match k with
  | [] => Ok false
  | k1 :: r =>
      kn ← orThrow (BigNumber_value (BNstring k1)) "invalid BigNumber string";
      if (kn <=? slotN) && (slotN <? kn + 128) then Ok true
      else withinStructure r slotN
  end.

Definition associatedWith (slot addr : string)
    (entitySlots : gmap string (list string)) : Result bool :=
  addrPadded ← orThrow (toLowerCase <$> hexZeroPad addr 32) "invalid hex string";
  if seq slot addrPadded then Ok true
  else
    match entitySlots !! addr with
    | None => Ok false
    | Some k =>
        slotN ← orThrow (BigNumber_value (BNstring slot)) "invalid BigNumber string";
        withinStructure k slotN
    end.

(** if addr is current account/paymaster/factory, then return that title
    otherwise, return addr as-is *)
Definition nameAddr (stakeInfoEntities : JSObject (option StakeInfo))
    (addr' : string) : string :=
  match find (fun e : string * option StakeInfo =>
                match e.2 with
                | Some info => seq (toLowerCase (addr info)) (toLowerCase addr')
                | None => false
                end) stakeInfoEntities with
  | Some e => e.1
  | None => addr'
  end.

Section Entity.

Variable userOp : UserOperation.
Variable entryPointAddress : string.
Variable sender' : string.
Variable callStack : list CallEntry.
Variable stakeInfoEntities : JSObject (option StakeInfo).
Variable entitySlots : gmap string (list string).
Variable entityTitle : string.
Variable entStakes : option StakeInfo.

Definition entityAddr : string :=
  match entStakes with
  | Some info => addr info
  | None => ""
  end.

(** [BigNumber.from(1).lt(x)] *)
Definition one_lt (x : BigNumberish) : Result bool :=
  n ← orThrow (BigNumber_value x) "invalid BigNumber value";
  Ok (1 <? n).

(** helper method: if condition is true, then entity must be staked. *)
Definition requireCondAndStake (access' : JSObject AccessInfo) (cond : bool)
    (failureMessage : string) : Result unit :=
  if negb cond then Ok tt
  else
    match entStakes with
    | None =>
        Throw (Error ("internal: " +:+ entityTitle
                        +:+ " not in userOp, but has storage accesses in "
                        +:+ JSON_stringify _ access'))
    | Some info =>
        a ← one_lt (stake info);
        staked ← (if a : bool then one_lt (unstakeDelaySec info) else Ok false);
        requireCond staked failureMessage OpcodeValidation
          (Some (entityTitle, Some (addr info)))
    end.

(** The body of the [forEach] over the slots of one address, on the
    captured [requireStakeSlot]. *)
Definition slotStep (addr' : string) (writes' : JSObject Z)
    (requireStakeSlot : option string) (slot : string) : Result (option string) :=
  bySender ← associatedWith slot sender' entitySlots;
  if bySender : bool then
    if (2 <? String.length (initCode userOp))%nat
    then Ok (Some slot)
    else Ok requireStakeSlot
  else
    byEntity ← associatedWith slot entityAddr entitySlots;
    if byEntity : bool then Ok (Some slot)
    else if seq addr' entityAddr then Ok (Some slot)
    else
      let readWrite :=
        if includes (keys writes') addr' then "write to" else "read from" in
      requireCond false
        (entityTitle +:+ " has forbidden " +:+ readWrite +:+ " "
           +:+ nameAddr stakeInfoEntities addr' +:+ " slot " +:+ slot)
        OpcodeValidation (Some (entityTitle, addr <$> entStakes)) ;;
      Ok requireStakeSlot.

(** The body of the [forEach] over [Object.entries(access)]. *)
Definition checkAccess (access' : JSObject AccessInfo)
    (entry : string * AccessInfo) : Result unit :=
  let addr' := entry.1 in
  if seq addr' sender' then Ok tt
  else if seq addr' entryPointAddress then Ok tt
  else
    requireStakeSlot ←
      forEachS (keys (writes entry.2) ++ keys (reads entry.2))
        (slotStep addr' (writes entry.2)) None;
    requireCondAndStake access' (isSome requireStakeSlot)
      ("unstaked " +:+ entityTitle +:+ " accessed "
         +:+ nameAddr stakeInfoEntities addr' +:+ " slot " +:+ tpl requireStakeSlot).

Definition checkOog (currentNumLevel : TopLevelCallInfo) : Result unit :=
  requireCond (negb (default false (oog currentNumLevel)))
    (entityTitle +:+ " internally reverts on oog") OpcodeValidation None.

Definition checkBannedOpcodes (opcodes' : JSObject Z) : Result unit :=
  forEach (keys opcodes')
    (fun opcode =>
       requireCond (negb (includes bannedOpCodes opcode))
         (entityTitle +:+ " uses banned opcode: " +:+ opcode)
         OpcodeValidation None).

Definition checkCreate2 (opcodes' : JSObject Z) : Result unit :=
  if seq entityTitle "factory" then
    requireCond (default 0 (get opcodes' "CREATE2") <=? 1)
      (entityTitle +:+ " with too many CREATE2") OpcodeValidation None
  else
    requireCond (isNone (get opcodes' "CREATE2"))
      (entityTitle +:+ " uses banned opcode: CREATE2") OpcodeValidation None.

Definition checkPaymasterContext (access' : JSObject AccessInfo) : Result unit :=
  if seq entityTitle "paymaster" then
    let validatePaymasterUserOp :=
      find (fun call =>
              seq_opt (call_method call) "validatePaymasterUserOp" &&
              seq_opt (call_to call) entityAddr) callStack in
    let context := context_of (validatePaymasterUserOp ≫= call_return) in
    requireCondAndStake access'
      (match context with
       | Some c => negb (seq c "0x")
       | None => false
       end)
      "unstaked paymaster must not return context"
  else Ok tt.

(** the only contract we allow to access before its deployment is the
    "sender" itself, which gets created. *)
Definition checkUndeployed (contractSize' : JSObject Z) : Result unit :=
  requireCond
    (isNone (find (fun a =>
                     negb (seq a sender') &&
                     match get contractSize' a with
                     | Some n => n <=? 2
                     | None => false
                     end) (keys contractSize')))
    (entityTitle +:+ " accesses un-deployed contract "
       +:+ JSON_stringify _ contractSize')
    OpcodeValidation None.

(** The body of the [forEach] over the three entities. *)
Definition checkEntity (levels : list TopLevelCallInfo) : Result unit :=
  match find (fun info =>
                match get callsFromEntryPointMethodSigs entityTitle with
                | Some sig => seq (topLevelMethodSig info) sig
                | None => false
                end) levels with
  | None =>
      if seq entityTitle "account"
      then Throw (Error "missing trace into validateUserOp")
      else Ok tt
  | Some currentNumLevel =>
      let opcodes' := opcodes currentNumLevel in
      let access' := access currentNumLevel in
      checkOog currentNumLevel ;;
      checkBannedOpcodes opcodes' ;;
      checkCreate2 opcodes' ;;
      forEach access' (checkAccess access') ;;
      checkPaymasterContext access' ;;
      checkUndeployed (contractSize currentNumLevel)
  end.

End Entity.

(** ** The result *)

(** [storageMap[addr] = storageMap[addr] ?? level.access[addr].reads];
    [addr] is a key of [level.access], so the lookup finds it. *)
Definition recordReads (level : TopLevelCallInfo)
    (storageMap : gmap string (JSObject string)) (addr' : string)
    : gmap string (JSObject string) :=
  match get (access level) addr' with
  | Some info => <[addr' := default (reads info) (storageMap !! addr')]> storageMap
  | None => storageMap
  end.

Definition buildStorageMap (levels : list TopLevelCallInfo)
    : gmap string (JSObject string) :=
  fold_left
    (fun storageMap level =>
       fold_left (recordReads level) (keys (access level)) storageMap)
    levels ∅.

Definition collectAddresses (levels : list TopLevelCallInfo) : list string :=
  flat_map (fun level => keys (contractSize level)) levels.

(** parse collected simulation traces and revert if they break our rules.
    The [debug] calls are left out: they only print. *)
Definition parseScannerResult (userOp : UserOperation)
    (tracerResults : BundlerCollectorReturn)
    (validationResult : ValidationResult) (entryPoint_address : string)
    : Result (list string * gmap string (JSObject string)) :=
  let entryPointAddress := toLowerCase entryPoint_address in
  if (length (callsFromEntryPoint tracerResults) <? 1)%nat then
    Throw (Error "Unexpected traceCall result: no calls from entrypoint.")
  else
    let callStack := parseCallStack tracerResults in
    checkCallIntoEntryPoint entryPointAddress callStack ;;
    checkCallWithValue entryPointAddress callStack ;;
    let sender' := toLowerCase (sender userOp) in
    let stakeInfoEntities :=
      [("factory", factoryInfo validationResult);
       ("account", senderInfo validationResult);
       ("paymaster", paymasterInfo validationResult)] in
    entitySlots ← parseEntitySlots stakeInfoEntities (keccak tracerResults);
    forEach stakeInfoEntities
      (fun e =>
         checkEntity userOp entryPointAddress sender' callStack stakeInfoEntities
           entitySlots e.1 e.2 (callsFromEntryPoint tracerResults)) ;;
    Ok (collectAddresses (callsFromEntryPoint tracerResults),
        buildStorageMap (callsFromEntryPoint tracerResults)).

End Scanner.

(** ** Concrete traces

    A stand-in for the libraries (a hash that is not keccak, an [Interface]
    that knows four methods by name) and small inputs on which the model is
    run in the examples below. *)

Module Scenario.

Definition externals : Externals := {|
  keccak256 := fun k =>
    if isHexString k && Nat.even (String.length k)
    then Some ("0xaa" +:+ pretty (String.length k))
    else None;
  xfaces_getFunction := fun m =>
    if includes ["validateUserOp"; "validatePaymasterUserOp";
                 "createSender"; "depositTo"] m
    then Some {| fragment_name := m |}
    else None;
  xfaces_parseError := fun _ => None;
  xfaces_decodeFunctionResult := fun m data =>
    if seq (fragment_name m) "validatePaymasterUserOp"
    then Some [("context", data)]
    else None;
  getSighash := fun m =>
    if seq m "createSender" then "0x570e1a36"
    else if seq m "validateUserOp" then "0x3a871cdd"
    else if seq m "validatePaymasterUserOp" then "0xf465c77e"
    else "0x";
  JSON_stringify := fun _ _ => "{}"
|}.

Definition entryPoint : string := "0x5ff137d4b0fdcd49dca30c7cf57e578a026d2789".
Definition account : string := "0x00000000000000000000000000000000000000a1".
Definition paymaster : string := "0x00000000000000000000000000000000000000b2".
Definition token : string := "0x00000000000000000000000000000000000000c3".

Definition enter (type to from method : string) (value : option BigNumberish)
    : CallEvent :=
  {| ev_type := type; ev_to := Some to; ev_from := Some from;
     ev_method := method; ev_value := value; ev_data := "" |}.

Definition leave (type data : string) : CallEvent :=
  {| ev_type := type; ev_to := None; ev_from := None; ev_method := "";
     ev_value := None; ev_data := data |}.

Definition accountLevel (access' : JSObject AccessInfo) (sizes : JSObject Z)
    (calls' : list CallEvent) : TopLevelCallInfo :=
  {| topLevelMethodSig := "0x3a871cdd"; opcodes := [("SLOAD", 1)];
     access := access'; contractSize := sizes; oog := None; calls := calls' |}.

Definition paymasterLevel (access' : JSObject AccessInfo) (sizes : JSObject Z)
    (calls' : list CallEvent) : TopLevelCallInfo :=
  {| topLevelMethodSig := "0xf465c77e"; opcodes := [("SLOAD", 1)];
     access := access'; contractSize := sizes; oog := None; calls := calls' |}.

Definition info (a : string) (stake' delay : Z) : StakeInfo :=
  {| addr := a; stake := BNnumber stake'; unstakeDelaySec := BNnumber delay |}.

Definition unstakedAccount : ValidationResult :=
  {| factoryInfo := None; senderInfo := Some (info account 0 0);
     paymasterInfo := None |}.

Definition plainOp : UserOperation := {| sender := account; initCode := "0x" |}.
Definition deployingOp : UserOperation :=
  {| sender := account; initCode := "0x5fbfb9cf" |}.

(** The account calls [token] with 5 wei; the call reverts. *)
Definition traceWithValue : BundlerCollectorReturn :=
  {| callsFromEntryPoint :=
       [accountLevel [] [(account, 100)]
          [enter "CALL" token account "0x12345678" (Some (BNstring "0x5"));
           leave "REVERT" "0x";
           leave "RETURN" "0x"]];
     keccak := [] |}.

(** The account deposits to the entry point and nothing else is recorded:
    no call carries a value. *)
Definition traceDepositOnly : BundlerCollectorReturn :=
  {| callsFromEntryPoint :=
       [accountLevel [] [(account, 100)]
          [enter "CALL" entryPoint account "depositTo" None;
           leave "RETURN" "0x"]];
     keccak := [] |}.

(** What the account hashed to reach its balance in [token]: its padded
    address followed by the index of the mapping. With the stand-in hash
    the slot is [0xaa130]. *)
Definition balancePreimage : string :=
  "0x00000000000000000000000000000000000000000000000000000000000000a1"
    +:+ "0000000000000000000000000000000000000000000000000000000000000001".

Definition balanceSlot : string := "0xaa130".

Definition readsOfAccount : JSObject string := [(balanceSlot, "0x01")].
Definition readsOfPaymaster : JSObject string := [(balanceSlot, "0x02")].

(** The account reads its balance in [token]. *)
Definition traceBalance : BundlerCollectorReturn :=
  {| callsFromEntryPoint :=
       [accountLevel [(token, {| reads := readsOfAccount; writes := [] |})]
          [(account, 100); (token, 200)] [leave "RETURN" "0x"]];
     keccak := [balancePreimage] |}.

(** The account and the paymaster both read the account's balance in
    [token]; the two levels record different values for it. *)
Definition traceTwoLevels : BundlerCollectorReturn :=
  {| callsFromEntryPoint :=
       [accountLevel [(token, {| reads := readsOfAccount; writes := [] |})]
          [(account, 100); (token, 200)] [leave "RETURN" "0x"];
        paymasterLevel [(token, {| reads := readsOfPaymaster; writes := [] |})]
          [(paymaster, 300); (token, 200)] [leave "RETURN" "0x"]];
     keccak := [balancePreimage] |}.

Definition withPaymaster : ValidationResult :=
  {| factoryInfo := None; senderInfo := Some (info account 0 0);
     paymasterInfo := Some (info paymaster 0 0) |}.

Definition accountSlots : gmap string (list string) :=
  {[ account := [balanceSlot] ]}.

(** The account calls [balanceOf] of the entry point. *)
Definition traceIntoEntryPoint : BundlerCollectorReturn :=
  {| callsFromEntryPoint :=
       [accountLevel [] [(account, 100)]
          [enter "STATICCALL" entryPoint account "0x70a08231" None;
           leave "RETURN" "0x00";
           leave "RETURN" "0x"]];
     keccak := [] |}.

(** The resolved [validatePaymasterUserOp] of the paymaster, with a context. *)
Definition callWithContext : CallEntry :=
  {| call_to := Some paymaster; call_from := Some entryPoint; call_type := "CALL";
     call_method := Some "validatePaymasterUserOp"; call_revert := None;
     call_return := Some (Decoded [("context", "0x1234")]);
     call_value := None |}.

Definition entities : JSObject (option StakeInfo) :=
  [("factory", None); ("account", Some (info account 0 0)); ("paymaster", None)].

End Scenario.

(** ** Predicates of the statements *)

(** What the first search looks for: a call into the entry point, from
    somebody else, that is neither the plain transfer [0x] nor [depositTo],
    the two ways to deposit. *)
Definition IllegalEntryPointCall (entryPointAddress : string) (call : CallEntry) : Prop :=
  call_to call = Some entryPointAddress /\
  call_from call <> Some entryPointAddress /\
  call_method call <> Some "0x" /\
  call_method call <> Some "depositTo".

(** Both the stake and the unstake delay are above the threshold of 1. *)
Definition Staked (info : StakeInfo) : Prop :=
  exists s d : Z,
    BigNumber_value (stake info) = Some s /\
    BigNumber_value (unstakeDelaySec info) = Some d /\
    1 < s /\ 1 < d.

(** The slots recorded for an address: [entitySlots[addr]], empty when the
    address has no entry. *)
Definition slotsOf (entitySlots : gmap string (list string)) (a : string) : list string :=
  default [] (entitySlots !! a).

(** A key of a slot set holds a number. *)
Definition holdsNumber (k1 : string) : bool :=
  isSome (BigNumber_value (BNstring k1)).

(** [slotN] lies in the 128 slots that start at the slot [k1]. *)
Definition InStructure (slotN : Z) (k1 : string) : Prop :=
  exists kn : Z, BigNumber_value (BNstring k1) = Some kn /\ kn <= slotN < kn + 128.

(** The reads of the first level, in level order, whose access map has the
    address. *)
Definition firstReads (levels : list TopLevelCallInfo) (a : string)
    : option (JSObject string) :=
  match find (fun level => includes (keys (access level)) a) levels with
  | Some level => reads <$> get (access level) a
  | None => None
  end.

(** The levels that recorded a contract size for the address. *)
Definition levelsWithSize (levels : list TopLevelCallInfo) (a : string)
    : list TopLevelCallInfo :=
  List.filter (fun level => includes (keys (contractSize level)) a) levels.

(** ** Predicates of the further properties *)

(** The test of [parseCallStack] for a [RETURN] or [REVERT] marker. *)
Definition isExit (c : CallEvent) : bool :=
  contains "REVERT" (ev_type c) || contains "RETURN" (ev_type c).

(** The events [parseCallStack] walks over: the calls of every level, in
    level order, without the depth markers. *)
Definition traceEvents (tracerResults : BundlerCollectorReturn) : list CallEvent :=
  List.filter (fun x => negb (startsWith (ev_type x) "depth"))
    (flat_map calls (callsFromEntryPoint tracerResults)).

(** The frames still on [stack] when [parseCallStack] returns. *)
Definition openFrames `{Externals} (tracerResults : BundlerCollectorReturn)
    : list CallEvent :=
  snd (fold_left callStep (traceEvents tracerResults) ([], [])).

(** The same trace with other levels. *)
Definition withLevels (tracerResults : BundlerCollectorReturn)
    (levels : list TopLevelCallInfo) : BundlerCollectorReturn :=
  {| callsFromEntryPoint := levels; keccak := keccak tracerResults |}.

(** The resolved call has the addresses and the opcode of the frame. *)
Definition ResolvedFrom (c : CallEvent) (e : CallEntry) : Prop :=
  call_to e = ev_to c /\ call_from e = ev_from c /\ call_type e = ev_type c.

(** The level [checkEntity] looks at for an entity: the first one whose
    selector is the entity's. *)
Definition entityLevel `{Externals} (entityTitle : string)
    (levels : list TopLevelCallInfo) : option TopLevelCallInfo :=
  find (fun info =>
          match get callsFromEntryPointMethodSigs entityTitle with
          | Some sig => seq (topLevelMethodSig info) sig
          | None => false
          end) levels.

(** [stakeInfoEntities] of [parseScannerResult]. *)
Definition stakeInfoEntitiesOf (validationResult : ValidationResult)
    : JSObject (option StakeInfo) :=
  [("factory", factoryInfo validationResult);
   ("account", senderInfo validationResult);
   ("paymaster", paymasterInfo validationResult)].

(** The slots of an access entry ask for no stake: there is none, or the
    operation has no initCode and every slot belongs to the sender. *)
Definition NoStakeNeeded (userOp : UserOperation) (sender' : string)
    (entitySlots : gmap string (list string)) (slots : list string) : Prop :=
  slots = [] \/
  ((String.length (initCode userOp) <= 2)%nat /\
   forall slot, In slot slots -> associatedWith slot sender' entitySlots = Ok true).

(** A level with nothing for the checks of an entity to object to: not out
    of gas, no banned opcode and no CREATE2, storage touched at the sender
    and the entry point only, no [validatePaymasterUserOp] resolved for the
    paymaster, and no small contract but the sender. *)
Definition CleanLevel (sender' entryPointAddress : string) (callStack : list CallEntry)
    (entityTitle : string) (entStakes : option StakeInfo) (level : TopLevelCallInfo)
    : Prop :=
  oog level <> Some true /\
  (forall opcode, In opcode (keys (opcodes level)) -> ~ In opcode bannedOpCodes) /\
  ~ In "CREATE2" (keys (opcodes level)) /\
  (forall a, In a (keys (access level)) -> a = sender' \/ a = entryPointAddress) /\
  (entityTitle = "paymaster" ->
   forall call, In call callStack ->
     ~ (call_method call = Some "validatePaymasterUserOp" /\
        call_to call = Some (entityAddr entStakes))) /\
  (forall a n, get (contractSize level) a = Some n -> a <> sender' -> 2 < n).

(** ** Further concrete inputs *)

Module Examples.

Import Scenario.

Definition callToken : CallEvent :=
  enter "CALL" token account "0x12345678" (Some (BNstring "0x5")).

Definition createChild : CallEvent :=
  enter "CREATE2" paymaster token "0x60806040" None.

(** What [parseCallStack] makes of the reverted call of [traceWithValue]. *)
Definition revertedCall : CallEntry :=
  {| call_to := Some token; call_from := Some account; call_type := "CALL";
     call_method := None; call_revert := Some (Raw "0x"); call_return := None;
     call_value := Some (BNstring "0x5") |}.

(** What [parseCallStack] makes of the deposit of [traceDepositOnly]. *)
Definition depositCall : CallEntry :=
  {| call_to := Some entryPoint; call_from := Some account; call_type := "CALL";
     call_method := Some "depositTo"; call_revert := None;
     call_return := Some (Raw "0x"); call_value := None |}.

Definition levelOfAccount : TopLevelCallInfo :=
  accountLevel [(token, {| reads := readsOfAccount; writes := [] |})]
    [(account, 100); (token, 200)] [leave "RETURN" "0x"].

Definition levelOfPaymaster : TopLevelCallInfo :=
  paymasterLevel [(token, {| reads := readsOfPaymaster; writes := [] |})]
    [(paymaster, 300); (token, 200)] [leave "RETURN" "0x"].

Definition plainLevel : TopLevelCallInfo :=
  accountLevel [] [(account, 100)]
    [callToken; leave "REVERT" "0x"; leave "RETURN" "0x"].

(** A second preimage of the account, and the slot sets of the two. *)
Definition shortPreimage : string :=
  "0x00000000000000000000000000000000000000000000000000000000000000a1" +:+ "02".

Definition moreSlots : gmap string (list string) :=
  {[ account := [balanceSlot; "0xaa68"] ]}.

(** An entry of the access map with a written slot that belongs to nobody. *)
Definition foreignEntry : string * AccessInfo :=
  (token, {| reads := [("0x01", "0x00")]; writes := [("0x02", 1)] |}).

Definition balanceEntry : string * AccessInfo :=
  (token, {| reads := readsOfAccount; writes := [] |}).






(** The paymaster's address as a checksum address writes it. *)
Definition paymasterChecksum : string := "0x00000000000000000000000000000000000000B2".

(** What the paymaster hashed to reach its balance in [token]; with the
    stand-in hash the slot is [0xaa130], and [0xaa131] is the slot after. *)
Definition paymasterPreimage : string :=
  "0x00000000000000000000000000000000000000000000000000000000000000b2"
    +:+ "0000000000000000000000000000000000000000000000000000000000000001".

Definition tracePaymasterSlot : BundlerCollectorReturn :=
  {| callsFromEntryPoint :=
       [accountLevel [] [(account, 100)] [leave "RETURN" "0x"];
        paymasterLevel [(token, {| reads := [("0xaa131", "0x00")]; writes := [] |})]
          [(paymaster, 300); (token, 200)] [leave "RETURN" "0x"]];
     keccak := [paymasterPreimage] |}.

Definition paymasterSlots : gmap string (list string) :=
  {[ paymaster := ["0xaa130"] ]}.

Definition slotsOfBoth : gmap string (list string) :=
  <[ account := [] ]> paymasterSlots.

Definition slotAfterEntry : string * AccessInfo :=
  (token, {| reads := [("0xaa131", "0x00")]; writes := [] |}).

Definition stakedPaymaster (a : string) : ValidationResult :=
  {| factoryInfo := None; senderInfo := Some (info account 0 0);
     paymasterInfo := Some (info a 5 5) |}.

End Examples.



(** * Properties *)

(** ** Strings, objects, searches *)

Lemma seq_opt_true (a : option string) (b : string) :
  seq_opt a b = true <-> a = Some b.
Proof.
  destruct a as [x|]; simpl.
  - rewrite String.eqb_eq. split; congruence.
  - split; discriminate.
Qed.

Lemma seq_opt_false (a : option string) (b : string) :
  seq_opt a b = false <-> a <> Some b.
Proof.
  rewrite <- seq_opt_true. destruct (seq_opt a b); split; congruence.
Qed.

Lemma get_None {V} (o : JSObject V) (k : string) :
  get o k = None <-> ~ In k (keys o).
Proof.
  induction o as [|[k' v] o IH]; simpl.
  - tauto.
  - destruct (String.eqb_spec k' k) as [->|Hne].
    + split; [discriminate | tauto].
    + rewrite IH. tauto.
Qed.

Lemma get_Some_In {V} (o : JSObject V) (k : string) :
  In k (keys o) -> exists v, get o k = Some v.
Proof.
  intros Hin. destruct (get o k) as [v|] eqn:E; [eauto|].
  apply get_None in E. contradiction.
Qed.

Lemma includes_In (l : list string) (x : string) :
  includes l x = true <-> In x l.
Proof.
  unfold includes. rewrite existsb_exists. split.
  - intros (y & Hy & E). apply String.eqb_eq in E. now subst.
  - intros Hx. exists x. split; [assumption | apply String.eqb_refl].
Qed.

Lemma find_Exists {A} (p : A -> bool) (l : list A) :
  (exists x, In x l /\ p x = true) -> exists y, find p l = Some y /\ In y l /\ p y = true.
Proof.
  intros (x & Hin & Hp). destruct (find p l) as [y|] eqn:E.
  - exists y. apply find_some in E. tauto.
  - eapply find_none in E; eauto. congruence.
Qed.

Section Properties.

Context `{Externals}.

(** ** Call-shape checks *)

Lemma isCallIntoEntryPoint_spec (ep : string) (call : CallEntry) :
  isCallIntoEntryPoint ep call = true <-> IllegalEntryPointCall ep call.
Proof.
  unfold isCallIntoEntryPoint, IllegalEntryPointCall.
  rewrite !andb_true_iff, !negb_true_iff, seq_opt_true, !seq_opt_false. tauto.
Qed.

(** A value that holds a number is one [BigNumber.from] takes. *)
Lemma BigNumber_value_accepts (v : BigNumberish) (n : Z) :
  BigNumber_value v = Some n -> BigNumber_accepts v = true.
Proof.
  assert (Hs : forall s m, unsigned_string_value s = Some m ->
                           unsigned_string_accepted s = true).
  { intros s m Hm. unfold unsigned_string_accepted. now rewrite Hm. }
  destruct v as [z|s]; cbn [BigNumber_value BigNumber_accepts].
  - now destruct ((z <? 9007199254740991) && (-9007199254740991 <? z)).
  - destruct s as [|c r]; [apply Hs|].
    destruct (Ascii.ascii_dec c "-") as [->|Hc].
    + destruct (unsigned_string_value r) as [m|] eqn:E; [|discriminate].
      intros _. now apply (Hs r m).
    + intros Hv. assert (E : unsigned_string_value (String c r) = Some n).
      { revert Hv. destruct c as [[] [] [] [] [] [] [] []]; try exact (fun h => h).
        now elim Hc. }
      pose proof (Hs _ _ E) as Ha.
      revert Ha. destruct c as [[] [] [] [] [] [] [] []]; try exact (fun h => h).
      now elim Hc.
Qed.

(** The second search finds the first call whose target is not the entry
    point, whatever its value: the two [BigNumber] objects it compares are
    never the same object. *)
Lemma isCallWithValue_accepted (ep : string) (call : CallEntry) (next : nat) :
  BigNumber_accepts (default (BNnumber 0) (call_value call)) = true ->
  isCallWithValue ep call next =
    Ok (negb (seq_opt (call_to call) ep),
        if seq_opt (call_to call) ep then next else S (S next)).
Proof.
  intros Hv. unfold isCallWithValue, BigNumber_from, strict_neq.
  destruct (seq_opt (call_to call) ep); simpl; [reflexivity|].
  rewrite Hv. simpl. f_equal. f_equal.
  rewrite negb_true_iff, Nat.eqb_neq. lia.
Qed.

Lemma isCallWithValue_spec (ep : string) (call : CallEntry) (next : nat) (v : Z) :
  BigNumber_value (default (BNnumber 0) (call_value call)) = Some v ->
  isCallWithValue ep call next =
    Ok (negb (seq_opt (call_to call) ep),
        if seq_opt (call_to call) ep then next else S (S next)).
Proof.
  intros Hv. apply isCallWithValue_accepted. now apply BigNumber_value_accepts in Hv.
Qed.

Lemma findS_isCallWithValue (ep : string) (callStack : list CallEntry) (next : nat) :
  Forall (fun call =>
            exists v, BigNumber_value (default (BNnumber 0) (call_value call)) = Some v)
         callStack ->
  findS (isCallWithValue ep) callStack next =
    Ok (find (fun call => negb (seq_opt (call_to call) ep)) callStack).
Proof.
  intros Hall. revert next.
  induction Hall as [|call r [v Hv] _ IH]; intros next; simpl; [reflexivity|].
  rewrite (isCallWithValue_spec _ _ _ _ Hv). simpl.
  destruct (seq_opt (call_to call) ep); simpl; [apply IH | reflexivity].
Qed.

(** What the value check does: it passes exactly when some resolved call has
    a target other than the entry point. *)
Lemma checkCallWithValue_spec (ep : string) (callStack : list CallEntry) :
  Forall (fun call =>
            exists v, BigNumber_value (default (BNnumber 0) (call_value call)) = Some v)
         callStack ->
  checkCallWithValue ep callStack = Ok tt <->
  exists call, In call callStack /\ call_to call <> Some ep.
Proof.
  intros Hall. unfold checkCallWithValue. rewrite findS_isCallWithValue by assumption.
  cbn [mbind Result_bind].
  destruct (find (fun call => negb (seq_opt (call_to call) ep)) callStack) as [y|] eqn:Ef.
  - apply find_some in Ef. destruct Ef as [Hin Hy].
    apply negb_true_iff, seq_opt_false in Hy.
    split; [intros _; now exists y | reflexivity].
  - split; [discriminate|]. intros (call & Hin & Hne).
    eapply find_none in Ef; [|exact Hin]. apply negb_false_iff, seq_opt_true in Ef.
    contradiction.
Qed.

(** C6. A resolved call into the entry point from another address, other
    than a deposit ([depositTo], or the plain transfer [0x]), makes
    [parseScannerResult] raise "illegal call into EntryPoint during
    validation" with the method of the first such call; when the call
    list has no such call the check raises nothing. *)
Theorem C6_call_into_entry_point (userOp : UserOperation)
    (tracerResults : BundlerCollectorReturn) (validationResult : ValidationResult)
    (entryPoint_address : string) :
  let ep := toLowerCase entryPoint_address in
  let callStack := parseCallStack tracerResults in
  ((exists call, In call callStack /\ IllegalEntryPointCall ep call) ->
   exists call, In call callStack /\ IllegalEntryPointCall ep call /\
     parseScannerResult userOp tracerResults validationResult entryPoint_address =
       Throw (RpcError ("illegal call into EntryPoint during validation "
                          +:+ tpl (call_method call)) OpcodeValidation None)) /\
  (~ (exists call, In call callStack /\ IllegalEntryPointCall ep call) ->
   checkCallIntoEntryPoint ep callStack = Ok tt).
Proof.
  intros ep callStack. split.
  - intros (call & Hin & Hbad).
    destruct (find_Exists (isCallIntoEntryPoint ep) callStack) as (y & Hf & Hy & Hp).
    { exists call. split; [assumption|]. now apply isCallIntoEntryPoint_spec. }
    exists y. split; [assumption|]. split; [now apply isCallIntoEntryPoint_spec|].
    unfold parseScannerResult.
    destruct (callsFromEntryPoint tracerResults) as [|level levels] eqn:El.
    + exfalso. subst callStack. unfold parseCallStack in Hin.
      rewrite El in Hin. simpl in Hin. exact Hin.
    + simpl length. simpl Nat.ltb. cbv iota.
      fold callStack. fold ep.
      unfold checkCallIntoEntryPoint. rewrite Hf. reflexivity.
  - intros Hno. unfold checkCallIntoEntryPoint.
    destruct (find (isCallIntoEntryPoint ep) callStack) as [y|] eqn:Hf; [|reflexivity].
    exfalso. apply Hno. apply find_some in Hf. exists y.
    split; [tauto|]. apply isCallIntoEntryPoint_spec. tauto.
Qed.

(** ** Opcode checks *)

(** C7. On a factory level a CREATE2 count of at most one passes the
    creation-arity check and a count of two or more raises "factory with
    too many CREATE2"; on the level of any other entity a CREATE2 entry in
    the opcode histogram raises a violation. When the out-of-gas and
    banned-opcode checks of the level pass, the violation is what the
    checks of the entity raise. *)
Theorem C7_create2_arity (opcodes' : JSObject Z) :
  let count := default 0 (get opcodes' "CREATE2") in
  (count <= 1 -> checkCreate2 "factory" opcodes' = Ok tt) /\
  (2 <= count ->
   checkCreate2 "factory" opcodes' =
     Throw (RpcError "factory with too many CREATE2" OpcodeValidation None)) /\
  (forall entityTitle, entityTitle <> "factory" -> In "CREATE2" (keys opcodes') ->
   checkCreate2 entityTitle opcodes' =
     Throw (RpcError (entityTitle +:+ " uses banned opcode: CREATE2")
              OpcodeValidation None)) /\
  (forall userOp ep sender' callStack entities entitySlots entityTitle entStakes
          levels level e,
     find (fun info =>
             match get callsFromEntryPointMethodSigs entityTitle with
             | Some sig => seq (topLevelMethodSig info) sig
             | None => false
             end) levels = Some level ->
     opcodes level = opcodes' ->
     checkOog entityTitle level = Ok tt ->
     checkBannedOpcodes entityTitle opcodes' = Ok tt ->
     checkCreate2 entityTitle opcodes' = Throw e ->
     checkEntity userOp ep sender' callStack entities entitySlots entityTitle
       entStakes levels = Throw e).
Proof.
  intros count. repeat split.
  - intros Hle. unfold checkCreate2. simpl seq. cbv iota.
    fold count. destruct (Z.leb_spec count 1); [reflexivity | lia].
  - intros Hge. unfold checkCreate2. simpl seq. cbv iota.
    fold count. destruct (Z.leb_spec count 1); [lia | reflexivity].
  - intros entityTitle Hne Hin. unfold checkCreate2, seq.
    destruct (String.eqb_spec entityTitle "factory") as [->|_]; [contradiction|].
    destruct (get_Some_In _ _ Hin) as [v ->]. reflexivity.
  - intros userOp ep sender' callStack entities entitySlots entityTitle entStakes
      levels level e Hfind Hop Hoog Hbanned Hc2.
    unfold checkEntity. rewrite Hfind, Hop, Hoog. simpl.
    rewrite Hbanned. simpl. rewrite Hc2. reflexivity.
Qed.

(** ** Stake *)

(** C4. With a stake [s] and an unstake delay [d], a stake-requiring
    access passes if and only if [1 < s] and [1 < d]; otherwise, and so
    when either equals 1, it raises the violation it was given. *)
Theorem C4_staked_threshold (entityTitle : string) (info : StakeInfo)
    (access' : JSObject AccessInfo) (failureMessage : string) (s d : Z) :
  BigNumber_value (stake info) = Some s ->
  BigNumber_value (unstakeDelaySec info) = Some d ->
  (requireCondAndStake entityTitle (Some info) access' true failureMessage = Ok tt
   <-> 1 < s /\ 1 < d) /\
  (~ (1 < s /\ 1 < d) ->
   requireCondAndStake entityTitle (Some info) access' true failureMessage =
     Throw (RpcError failureMessage OpcodeValidation
              (Some (entityTitle, Some (addr info))))).
Proof.
  intros Hs Hd. unfold requireCondAndStake, one_lt. simpl negb. cbv iota.
  rewrite Hs. simpl.
  destruct (Z.ltb_spec 1 s) as [H1|H1]; simpl.
  - rewrite Hd. simpl. destruct (Z.ltb_spec 1 d) as [H2|H2]; simpl.
    + split; [split; [intros _; lia | reflexivity] | intros Hn; lia].
    + split; [split; [discriminate | lia] | reflexivity].
  - split; [split; [discriminate | lia] | reflexivity].
Qed.

Lemma requireCondAndStake_staked (entityTitle : string) (info : StakeInfo)
    (access' : JSObject AccessInfo) (failureMessage : string) :
  Staked info ->
  requireCondAndStake entityTitle (Some info) access' true failureMessage = Ok tt.
Proof.
  intros (s & d & Hs & Hd & H1 & H2).
  unfold requireCondAndStake, one_lt. simpl. rewrite Hs. simpl.
  apply Z.ltb_lt in H1, H2. rewrite H1. rewrite Hd. simpl. rewrite H2. reflexivity.
Qed.

Lemma requireCondAndStake_unstaked (entityTitle : string) (info : StakeInfo)
    (access' : JSObject AccessInfo) (failureMessage : string) (s d : Z) :
  BigNumber_value (stake info) = Some s ->
  BigNumber_value (unstakeDelaySec info) = Some d ->
  ~ (1 < s /\ 1 < d) ->
  requireCondAndStake entityTitle (Some info) access' true failureMessage =
    Throw (RpcError failureMessage OpcodeValidation
             (Some (entityTitle, Some (addr info)))).
Proof.
  intros Hs Hd Hn. unfold requireCondAndStake, one_lt. simpl. rewrite Hs. simpl.
  destruct (Z.ltb_spec 1 s); simpl; [|reflexivity].
  rewrite Hd. simpl. destruct (Z.ltb_spec 1 d); simpl; [lia | reflexivity].
Qed.

(** ** Entity slots *)

Lemma bind_Ok {A B} (m : Result A) (k : A -> Result B) (b : B) :
  m ≫= k = Ok b <-> exists a, m = Ok a /\ k a = Ok b.
Proof.
  destruct m as [a|e]; cbn [mbind Result_bind].
  - split; [intros Hk; now exists a | intros (a' & [= <-] & Hk); exact Hk].
  - split; [discriminate | intros (a' & [=] & _)].
Qed.

Lemma set_add_In (l : list string) (x s : string) :
  In s (set_add l x) <-> In s l \/ s = x.
Proof.
  unfold set_add. destruct (includes l x) eqn:E.
  - apply includes_In in E. split; [tauto|]. intros [?| ->]; assumption.
  - rewrite in_app_iff. simpl. intuition congruence.
Qed.

Lemma entitySlotsStep_slots (k : string) (es es' : gmap string (list string))
    (info : StakeInfo) :
  entitySlotsStep k es (Some info) = Ok es' ->
  exists p,
    toBytes32 (toLowerCase (addr info)) = Some p /\
    forall b s,
      In s (slotsOf es' b) <->
      In s (slotsOf es b) \/
      (b = toLowerCase (addr info) /\ startsWith k p = true /\ keccak256 k = Some s).
Proof.
  unfold entitySlotsStep. set (a := toLowerCase (addr info)).
  destruct (toBytes32 a) as [p|] eqn:Ep; simpl; [|discriminate].
  intros Hstep. exists p. split; [reflexivity|]. intros b s.
  set (es1 := match es !! a with
              | Some _ => es
              | None => <[a:=[]]> es
              end) in Hstep.
  assert (H1 : forall c, slotsOf es1 c = slotsOf es c).
  { intros c. unfold slotsOf, es1. destruct (es !! a) as [l|] eqn:Ea; [reflexivity|].
    destruct (decide (a = c)) as [->|Hne].
    - rewrite lookup_insert_eq, Ea. reflexivity.
    - rewrite lookup_insert_ne by assumption. reflexivity. }
  destruct (startsWith k p) eqn:Esw.
  - destruct (keccak256 k) as [h|] eqn:Eh; cbn [orThrow mbind Result_bind] in Hstep;
      [|discriminate].
    injection Hstep as <-. unfold slotsOf at 1.
    destruct (decide (a = b)) as [->|Hne].
    + rewrite lookup_insert_eq. simpl. rewrite set_add_In.
      fold (slotsOf es1 b). rewrite H1. intuition congruence.
    + rewrite lookup_insert_ne by assumption. fold (slotsOf es1 b). rewrite H1.
      intuition congruence.
  - injection Hstep as <-. rewrite H1. intuition congruence.
Qed.

Lemma entitySlotsStep_hash (k : string) (es es' : gmap string (list string))
    (info : StakeInfo) (p : string) :
  entitySlotsStep k es (Some info) = Ok es' ->
  toBytes32 (toLowerCase (addr info)) = Some p ->
  startsWith k p = true ->
  exists h, keccak256 k = Some h.
Proof.
  unfold entitySlotsStep. intros Hstep Hp Hsw. rewrite Hp in Hstep.
  cbn [orThrow mbind Result_bind] in Hstep. rewrite Hsw in Hstep.
  destruct (keccak256 k) as [h|]; [eauto | discriminate].
Qed.

Lemma entitySlots_inner (k : string) (infos : list (option StakeInfo))
    (es es' : gmap string (list string)) :
  forEachS infos (entitySlotsStep k) es = Ok es' ->
  forall b s,
    In s (slotsOf es' b) <->
    In s (slotsOf es b) \/
    (exists info p,
        In (Some info) infos /\ b = toLowerCase (addr info) /\
        toBytes32 b = Some p /\ startsWith k p = true /\ keccak256 k = Some s).
Proof.
  revert es. induction infos as [|[info|] infos IH]; intros es; cbn [forEachS].
  - intros [= <-] b s. split; [tauto|]. intros [?|(? & ? & [] & _)]. assumption.
  - destruct (entitySlotsStep k es (Some info)) as [es1|e] eqn:E1;
      cbn [mbind Result_bind]; [|discriminate].
    intros Hrest b s. destruct (entitySlotsStep_slots _ _ _ _ E1) as (p & Hp & Hs).
    rewrite (IH _ Hrest), Hs. split.
    + intros [[?|(-> & Hsw & Hh)]|(i & q & Hi & ?)].
      * now left.
      * right. exists info, p. simpl; tauto.
      * right. exists i, q. simpl; tauto.
    + intros [?|(i & q & [[= ->]|Hi] & -> & Hq & Hsw & Hh)].
      * tauto.
      * left. right. rewrite Hp in Hq. injection Hq as ->. simpl; tauto.
      * right. exists i, q. simpl; tauto.
  - cbn [entitySlotsStep mbind Result_bind].
    intros Hrest b s. rewrite (IH _ Hrest). split.
    + intros [?|(i & q & Hi & ?)]; [now left | right; exists i, q; simpl; tauto].
    + intros [?|(i & q & [[=]|Hi] & ?)]; [now left | right; exists i, q; simpl; tauto].
Qed.

Lemma entitySlots_outer (infos : list (option StakeInfo)) (ks : list string)
    (es es' : gmap string (list string)) :
  forEachS ks (fun entitySlots k => forEachS infos (entitySlotsStep k) entitySlots) es
    = Ok es' ->
  forall b s,
    In s (slotsOf es' b) <->
    In s (slotsOf es b) \/
    (exists k info p,
        In k ks /\ In (Some info) infos /\ b = toLowerCase (addr info) /\
        toBytes32 b = Some p /\ startsWith k p = true /\ keccak256 k = Some s).
Proof.
  revert es. induction ks as [|k ks IH]; intros es; cbn [forEachS].
  - intros [= <-] b s. split; [tauto|]. intros [?|(? & ? & ? & [] & _)]. assumption.
  - destruct (forEachS infos (entitySlotsStep k) es) as [es1|e] eqn:E1;
      cbn [mbind Result_bind]; [|discriminate].
    intros Hrest b s. rewrite (IH _ Hrest), (entitySlots_inner _ _ _ _ E1). split.
    + intros [[?|(i & q & ?)]|(k' & i & q & ? & ?)].
      * now left.
      * right. exists k, i, q. simpl; tauto.
      * right. exists k', i, q. simpl; tauto.
    + intros [?|(k' & i & q & [->|Hk] & ?)].
      * tauto.
      * left. right. exists i, q. simpl; tauto.
      * right. exists k', i, q. simpl; tauto.
Qed.

(** The resolver returns whenever every entity address can be padded and
    the hash takes every preimage that starts with one of them. *)
Lemma entitySlots_total (infos : list (option StakeInfo)) (ks : list string) :
  (forall info, In (Some info) infos ->
                exists p, toBytes32 (toLowerCase (addr info)) = Some p) ->
  (forall k info p,
     In k ks -> In (Some info) infos ->
     toBytes32 (toLowerCase (addr info)) = Some p ->
     startsWith k p = true ->
     exists h, keccak256 k = Some h) ->
  forall es, exists es',
    forEachS ks (fun entitySlots k => forEachS infos (entitySlotsStep k) entitySlots) es
      = Ok es'.
Proof.
  intros Hpad Hhash.
  assert (Hinner : forall k, In k ks -> forall infos', incl infos' infos ->
            forall es, exists es', forEachS infos' (entitySlotsStep k) es = Ok es').
  { intros k Hk infos'. induction infos' as [|[info|] infos' IH]; intros Hincl es;
      cbn [forEachS].
    - eauto.
    - destruct (Hpad info) as [p Hp]; [apply Hincl; now left|].
      assert (Hstep : exists es1, entitySlotsStep k es (Some info) = Ok es1).
      { unfold entitySlotsStep. rewrite Hp. cbn [orThrow mbind Result_bind].
        destruct (startsWith k p) eqn:Esw; [|eauto].
        destruct (Hhash k info p Hk (Hincl _ (or_introl eq_refl)) Hp Esw) as [h ->].
        cbn [orThrow mbind Result_bind]. eauto. }
      destruct Hstep as [es1 ->]. cbn [mbind Result_bind].
      apply IH. intros i Hi. apply Hincl. now right.
    - cbn [entitySlotsStep mbind Result_bind].
      apply IH. intros i Hi. apply Hincl. now right. }
  induction ks as [|k ks IH]; intros es; cbn [forEachS].
  - eauto.
  - destruct (Hinner k (or_introl eq_refl) infos (incl_refl _) es) as [es1 ->].
    cbn [mbind Result_bind]. apply IH.
    + intros k' info p Hk'. apply Hhash. now right.
    + intros k' Hk'. apply Hinner. now right.
Qed.

(** When the resolver returns, every address was padded and every preimage
    that starts with a padded address was hashed. *)
Lemma entitySlots_returns (infos : list (option StakeInfo)) (ks : list string)
    (es es' : gmap string (list string)) :
  forEachS ks (fun entitySlots k => forEachS infos (entitySlotsStep k) entitySlots) es
    = Ok es' ->
  forall k info,
    In k ks -> In (Some info) infos ->
    exists p, toBytes32 (toLowerCase (addr info)) = Some p /\
              (startsWith k p = true -> exists h, keccak256 k = Some h).
Proof.
  assert (Hinner : forall k infos' es0 es1,
            forEachS infos' (entitySlotsStep k) es0 = Ok es1 ->
            forall info, In (Some info) infos' ->
              exists p, toBytes32 (toLowerCase (addr info)) = Some p /\
                        (startsWith k p = true -> exists h, keccak256 k = Some h)).
  { intros k infos'. induction infos' as [|i infos' IH]; intros es0 es1;
      cbn [forEachS]; [intros _ ? []|].
    rewrite bind_Ok. intros (es2 & Hstep & Hrest) info [->|Hin].
    - destruct (entitySlotsStep_slots _ _ _ _ Hstep) as (p & Hp & _).
      exists p. split; [assumption|]. intros Hsw.
      now apply (entitySlotsStep_hash _ _ _ _ _ Hstep Hp).
    - now apply (IH _ _ Hrest). }
  revert es. induction ks as [|k0 ks IH]; intros es; cbn [forEachS];
    [intros _ ? ? []|].
  rewrite bind_Ok. intros (es1 & H1 & Hrest) k info [<-|Hk] Hin.
  - now apply (Hinner _ _ _ _ H1).
  - now apply (IH _ Hrest).
Qed.

(** C5. For every run of [parseEntitySlots] that returns, a slot is in the
    set of an entity if and only if it is the hash of an observed preimage
    that begins with the padded (lower-case) address of the entity: nothing
    is added for a preimage that merely ends in a slot already in the set.
    The run returns when every entity address can be left-padded to 32
    bytes and the hash takes every preimage that starts with a padded
    address, and only then. *)
Theorem C5_entity_slots (stakeInfoEntities : JSObject (option StakeInfo))
    (keccak' : list string) :
  (forall entitySlots,
     parseEntitySlots stakeInfoEntities keccak' = Ok entitySlots ->
     forall info, In (Some info) (values stakeInfoEntities) ->
     forall s,
       In s (slotsOf entitySlots (toLowerCase (addr info))) <->
       exists k p,
         In k keccak' /\ toBytes32 (toLowerCase (addr info)) = Some p /\
         startsWith k p = true /\ keccak256 k = Some s) /\
  ((forall info, In (Some info) (values stakeInfoEntities) ->
                 exists p, toBytes32 (toLowerCase (addr info)) = Some p) ->
   (forall k info p,
      In k keccak' -> In (Some info) (values stakeInfoEntities) ->
      toBytes32 (toLowerCase (addr info)) = Some p ->
      startsWith k p = true ->
      exists h, keccak256 k = Some h) ->
   exists entitySlots, parseEntitySlots stakeInfoEntities keccak' = Ok entitySlots) /\
  (forall entitySlots,
     parseEntitySlots stakeInfoEntities keccak' = Ok entitySlots ->
     forall k info,
       In k keccak' -> In (Some info) (values stakeInfoEntities) ->
       exists p, toBytes32 (toLowerCase (addr info)) = Some p /\
                 (startsWith k p = true -> exists h, keccak256 k = Some h)).
Proof.
  unfold parseEntitySlots. split; [|split].
  - intros es Hes info Hin s.
    rewrite (entitySlots_outer _ _ _ _ Hes). unfold slotsOf at 1.
    rewrite lookup_empty. simpl. split.
    + intros [[]|(k & i & p & Hk & _ & _ & Hp & Hsw & Hh)]. exists k, p. tauto.
    + intros (k & p & Hk & Hp & Hsw & Hh). right. exists k, info, p. tauto.
  - intros Hpad Hhash. apply entitySlots_total; assumption.
  - intros es Hes. now apply (entitySlots_returns _ _ _ _ Hes).
Qed.

(** ** Storage access *)

Lemma withinStructure_spec (k : list string) (slotN : Z) :
  forallb holdsNumber k = true ->
  exists b,
    withinStructure k slotN = Ok b /\
    (b = true <-> exists k1, In k1 k /\ InStructure slotN k1).
Proof.
  induction k as [|k1 k IH]; cbn [withinStructure forallb].
  - intros _. exists false. split; [reflexivity|].
    split; [discriminate | intros (? & [] & _)].
  - rewrite andb_true_iff. intros [Hk1 Hk]. unfold holdsNumber in Hk1.
    destruct (BigNumber_value (BNstring k1)) as [kn|] eqn:Ekn; [|discriminate].
    cbn [orThrow mbind Result_bind].
    destruct ((kn <=? slotN) && (slotN <? kn + 128)) eqn:Er.
    + exists true. split; [reflexivity|]. split; [|reflexivity]. intros _.
      exists k1. split; [now left|]. exists kn. split; [assumption|].
      apply andb_true_iff in Er. lia.
    + destruct (IH Hk) as (b & Hb & Hiff). exists b. split; [assumption|].
      rewrite Hiff. split.
      * intros (k2 & Hin & Hs). exists k2. split; [now right | assumption].
      * intros (k2 & [<-|Hin] & Hs); [|now exists k2].
        destruct Hs as (kn' & Hkn' & Hr). rewrite Ekn in Hkn'. injection Hkn' as <-.
        apply andb_false_iff in Er. lia.
Qed.

Lemma associatedWith_spec (slot addr' : string) (entitySlots : gmap string (list string))
    (p : string) (n : Z) :
  hexZeroPad addr' 32 = Some p ->
  BigNumber_value (BNstring slot) = Some n ->
  forallb holdsNumber (slotsOf entitySlots addr') = true ->
  exists b,
    associatedWith slot addr' entitySlots = Ok b /\
    (b = true <->
     slot = toLowerCase p \/
     exists k1, In k1 (slotsOf entitySlots addr') /\ InStructure n k1).
Proof.
  intros Hp Hn Hk. unfold associatedWith. rewrite Hp.
  cbn [fmap option_fmap option_map orThrow mbind Result_bind]. unfold seq.
  destruct (String.eqb_spec slot (toLowerCase p)) as [->|Hne].
  - exists true. tauto.
  - unfold slotsOf in *. destruct (entitySlots !! addr') as [k|]; cbn [default] in Hk |- *.
    + rewrite Hn. cbn [orThrow mbind Result_bind].
      destruct (withinStructure_spec k n Hk) as (b & Hb & Hiff).
      exists b. split; [assumption|]. rewrite Hiff. tauto.
    + exists false. split; [reflexivity|].
      split; [discriminate | intros [?|(? & [] & _)]; contradiction].
Qed.

Lemma slotStep_sender (userOp : UserOperation) (sender' : string)
    (entities : JSObject (option StakeInfo)) (entitySlots : gmap string (list string))
    (entityTitle : string) (entStakes : option StakeInfo) (a : string)
    (writes' : JSObject Z) (requireStakeSlot : option string) (slot : string) :
  associatedWith slot sender' entitySlots = Ok true ->
  slotStep userOp sender' entities entitySlots entityTitle entStakes a writes'
    requireStakeSlot slot =
    Ok (if (2 <? String.length (initCode userOp))%nat
        then Some slot else requireStakeSlot).
Proof.
  intros Hs. unfold slotStep. rewrite Hs. cbn [mbind Result_bind].
  now destruct (2 <? String.length (initCode userOp))%nat.
Qed.

Lemma forEachS_sender_slots (userOp : UserOperation) (sender' : string)
    (entities : JSObject (option StakeInfo)) (entitySlots : gmap string (list string))
    (entityTitle : string) (entStakes : option StakeInfo) (a : string)
    (writes' : JSObject Z) (slots : list string) (requireStakeSlot : option string) :
  (forall slot, In slot slots -> associatedWith slot sender' entitySlots = Ok true) ->
  forEachS slots
    (slotStep userOp sender' entities entitySlots entityTitle entStakes a writes')
    requireStakeSlot =
    Ok (if (2 <? String.length (initCode userOp))%nat
        then match last slots with
             | Some slot => Some slot
             | None => requireStakeSlot
             end
        else requireStakeSlot).
Proof.
  revert requireStakeSlot.
  induction slots as [|slot slots IH]; intros rss Hall; cbn [forEachS].
  - now destruct (2 <? String.length (initCode userOp))%nat.
  - rewrite slotStep_sender by (apply Hall; now left).
    cbn [mbind Result_bind]. rewrite IH by (intros; apply Hall; now right).
    destruct (2 <? String.length (initCode userOp))%nat; [|reflexivity].
    destruct slots as [|slot' slots]; [reflexivity|].
    rewrite last_cons_cons. destruct (last (slot' :: slots)) eqn:El; [reflexivity|].
    apply last_None in El. discriminate.
Qed.

(** C2, as the code has it. A slot associated with the sender, at an
    address that is neither the sender nor the entry point, is treated
    alike for every entity, the account included: without initCode the
    access records no stake requirement, with initCode it records the
    slot as stake-requiring. So an entry whose slots all belong to the
    sender passes whatever the stake when there is no initCode, and with
    initCode passes exactly when the entity is staked. *)
Theorem C2_sender_slots (userOp : UserOperation) (ep sender' : string)
    (entities : JSObject (option StakeInfo)) (entitySlots : gmap string (list string))
    (entityTitle : string) (entStakes : option StakeInfo)
    (access' : JSObject AccessInfo) (entry : string * AccessInfo) :
  let slots := keys (writes entry.2) ++ keys (reads entry.2) in
  entry.1 <> sender' ->
  entry.1 <> ep ->
  (forall slot, In slot slots -> associatedWith slot sender' entitySlots = Ok true) ->
  (forall requireStakeSlot slot,
     In slot slots ->
     slotStep userOp sender' entities entitySlots entityTitle entStakes entry.1
       (writes entry.2) requireStakeSlot slot =
       Ok (if (2 <? String.length (initCode userOp))%nat
           then Some slot else requireStakeSlot)) /\
  ((String.length (initCode userOp) <= 2)%nat ->
   checkAccess userOp ep sender' entities entitySlots entityTitle entStakes access'
     entry = Ok tt) /\
  ((2 < String.length (initCode userOp))%nat ->
   slots <> [] ->
   forall info s d,
     entStakes = Some info ->
     BigNumber_value (stake info) = Some s ->
     BigNumber_value (unstakeDelaySec info) = Some d ->
     (checkAccess userOp ep sender' entities entitySlots entityTitle entStakes access'
        entry = Ok tt <-> 1 < s /\ 1 < d)).
Proof.
  intros slots Hns Hne Hall.
  assert (Hpre : forall b, b <> entry.1 -> seq entry.1 b = false).
  { intros b Hb. unfold seq. apply String.eqb_neq. congruence. }
  split; [|split].
  - intros rss slot Hin. apply slotStep_sender, Hall, Hin.
  - intros Hlen. unfold checkAccess.
    rewrite (Hpre sender'), (Hpre ep) by congruence.
    fold slots. rewrite forEachS_sender_slots by exact Hall.
    apply Nat.ltb_ge in Hlen. rewrite Hlen. reflexivity.
  - intros Hlen Hslots info s d -> Hs Hd. unfold checkAccess.
    rewrite (Hpre sender'), (Hpre ep) by congruence.
    fold slots. rewrite forEachS_sender_slots by exact Hall.
    apply Nat.ltb_lt in Hlen. rewrite Hlen.
    destruct (last slots) as [slot|] eqn:El.
    + cbn [mbind Result_bind isSome]. split.
      * intros Hok. destruct (Z_lt_dec 1 s) as [H1|H1], (Z_lt_dec 1 d) as [H2|H2];
          [tauto | | | ];
          rewrite (requireCondAndStake_unstaked _ _ _ _ s d Hs Hd) in Hok
            by lia; discriminate.
      * intros [H1 H2]. apply requireCondAndStake_staked. exists s, d. tauto.
    + apply last_None in El. contradiction.
Qed.

(** ** The result *)

Lemma parseScannerResult_Ok (userOp : UserOperation)
    (tracerResults : BundlerCollectorReturn) (validationResult : ValidationResult)
    (entryPoint_address : string) (r : list string * gmap string (JSObject string)) :
  parseScannerResult userOp tracerResults validationResult entryPoint_address = Ok r ->
  r = (collectAddresses (callsFromEntryPoint tracerResults),
       buildStorageMap (callsFromEntryPoint tracerResults)).
Proof.
  unfold parseScannerResult. cbv zeta.
  destruct (length (callsFromEntryPoint tracerResults) <? 1)%nat; [discriminate|].
  destruct (checkCallIntoEntryPoint _ _); cbn [mbind Result_bind]; [|discriminate].
  destruct (checkCallWithValue _ _); cbn [mbind Result_bind]; [|discriminate].
  destruct (parseEntitySlots _ _); cbn [mbind Result_bind]; [|discriminate].
  destruct (forEach _ _); cbn [mbind Result_bind]; [|discriminate].
  congruence.
Qed.

Lemma count_occ_NoDup (l : list string) (a : string) :
  List.NoDup l ->
  count_occ string_dec l a = if includes l a then 1%nat else 0%nat.
Proof.
  intros Hnd. destruct (includes l a) eqn:E.
  - apply includes_In in E. now apply (proj1 (NoDup_count_occ' string_dec l) Hnd).
  - apply count_occ_not_In. rewrite <- includes_In. congruence.
Qed.

Lemma count_occ_collectAddresses (levels : list TopLevelCallInfo) (a : string) :
  (forall level, In level levels -> List.NoDup (keys (contractSize level))) ->
  count_occ string_dec (collectAddresses levels) a = length (levelsWithSize levels a).
Proof.
  unfold collectAddresses, levelsWithSize.
  induction levels as [|level levels IH]; intros Hnd; [reflexivity|].
  cbn [flat_map List.filter]. rewrite count_occ_app, IH by (intros; apply Hnd; now right).
  rewrite count_occ_NoDup by (apply Hnd; now left).
  now destruct (includes (keys (contractSize level)) a).
Qed.

(** C3, as the code has it. On a successful run the first component is
    the concatenation, in level order, of the contract-size keys of every
    level: it holds exactly the addresses some level recorded a size for,
    each once for every level that recorded it. *)
Theorem C3_addresses (userOp : UserOperation) (tracerResults : BundlerCollectorReturn)
    (validationResult : ValidationResult) (entryPoint_address : string)
    (addresses : list string) (storageMap : gmap string (JSObject string)) :
  parseScannerResult userOp tracerResults validationResult entryPoint_address
    = Ok (addresses, storageMap) ->
  let levels := callsFromEntryPoint tracerResults in
  addresses = flat_map (fun level => keys (contractSize level)) levels /\
  (forall a, In a addresses <->
             exists level, In level levels /\ In a (keys (contractSize level))) /\
  ((forall level, In level levels -> List.NoDup (keys (contractSize level))) ->
   forall a, count_occ string_dec addresses a = length (levelsWithSize levels a)).
Proof.
  intros Hok levels. apply parseScannerResult_Ok in Hok. injection Hok as -> _.
  split; [reflexivity|]. split.
  - intros a. unfold collectAddresses. rewrite in_flat_map. reflexivity.
  - intros Hnd a. now apply count_occ_collectAddresses.
Qed.

Lemma get_Some_keys {V} (o : JSObject V) (k : string) (v : V) :
  get o k = Some v -> In k (keys o).
Proof.
  intros Hg. destruct (in_dec string_dec k (keys o)) as [?|Hn]; [assumption|].
  apply get_None in Hn. congruence.
Qed.

Lemma recordReads_lookup (level : TopLevelCallInfo)
    (storageMap : gmap string (JSObject string)) (k a : string) :
  recordReads level storageMap k !! a =
    match storageMap !! a with
    | Some r => Some r
    | None => if String.eqb k a then reads <$> get (access level) a else None
    end.
Proof.
  unfold recordReads. destruct (String.eqb_spec k a) as [->|Hne].
  - destruct (get (access level) a) as [info|].
    + rewrite lookup_insert_eq. now destruct (storageMap !! a).
    + now destruct (storageMap !! a).
  - destruct (get (access level) k) as [info|].
    + rewrite lookup_insert_ne by assumption. now destruct (storageMap !! a).
    + now destruct (storageMap !! a).
Qed.

Lemma fold_recordReads_lookup (level : TopLevelCallInfo) (ks : list string)
    (storageMap : gmap string (JSObject string)) (a : string) :
  fold_left (recordReads level) ks storageMap !! a =
    match storageMap !! a with
    | Some r => Some r
    | None => if includes ks a then reads <$> get (access level) a else None
    end.
Proof.
  revert storageMap. induction ks as [|k ks IH]; intros sm; cbn [fold_left].
  - now destruct (sm !! a).
  - rewrite IH, recordReads_lookup. unfold includes. cbn [existsb].
    destruct (sm !! a) as [r|]; [reflexivity|].
    destruct (String.eqb k a); cbn [orb]; [|reflexivity].
    destruct (reads <$> get (access level) a); [reflexivity|].
    now destruct (existsb _ ks).
Qed.

Lemma buildStorageMap_from (levels : list TopLevelCallInfo)
    (storageMap : gmap string (JSObject string)) (a : string) :
  fold_left
    (fun storageMap level =>
       fold_left (recordReads level) (keys (access level)) storageMap)
    levels storageMap !! a =
    match storageMap !! a with
    | Some r => Some r
    | None => firstReads levels a
    end.
Proof.
  revert storageMap. induction levels as [|level levels IH]; intros sm; cbn [fold_left].
  - unfold firstReads. cbn [find]. now destruct (sm !! a).
  - rewrite IH, fold_recordReads_lookup. unfold firstReads. cbn [find].
    destruct (sm !! a) as [r|]; [reflexivity|].
    destruct (includes (keys (access level)) a) eqn:E; [|reflexivity].
    apply includes_In, get_Some_In in E. destruct E as [info ->]. reflexivity.
Qed.

Lemma buildStorageMap_lookup (levels : list TopLevelCallInfo) (a : string) :
  buildStorageMap levels !! a = firstReads levels a.
Proof.
  unfold buildStorageMap. rewrite buildStorageMap_from. now rewrite lookup_empty.
Qed.

Lemma firstReads_first (before after : list TopLevelCallInfo)
    (level : TopLevelCallInfo) (a : string) (info : AccessInfo) :
  (forall l, In l before -> ~ In a (keys (access l))) ->
  get (access level) a = Some info ->
  firstReads (before ++ level :: after) a = Some (reads info).
Proof.
  intros Hbefore Hget. unfold firstReads.
  induction before as [|l before IH]; cbn [app find].
  - assert (Hin : includes (keys (access level)) a = true).
    { apply includes_In. eapply get_Some_keys. exact Hget. }
    rewrite Hin, Hget. reflexivity.
  - destruct (includes (keys (access l)) a) eqn:E.
    + apply includes_In in E. exfalso. apply (Hbefore l); [now left | assumption].
    + apply IH. intros l' Hl'. apply Hbefore. now right.
Qed.

Lemma first_level_with (levels : list TopLevelCallInfo) (a : string) :
  (exists l, In l levels /\ In a (keys (access l))) ->
  exists before level after info,
    levels = before ++ level :: after /\
    (forall l, In l before -> ~ In a (keys (access l))) /\
    get (access level) a = Some info.
Proof.
  induction levels as [|l levels IH]; intros (l0 & Hin & Ha); [destruct Hin|].
  destruct (in_dec string_dec a (keys (access l))) as [Hl|Hl].
  - destruct (get_Some_In _ _ Hl) as [info Hinfo].
    exists [], l, levels, info. split; [reflexivity|]. split; [intros ? []|assumption].
  - destruct IH as (before & level & after & info & -> & Hb & Hg).
    { destruct Hin as [->|Hin]; [contradiction|]. now exists l0. }
    exists (l :: before), level, after, info. split; [reflexivity|].
    split; [|assumption]. intros l' [<-|Hl']; [assumption | now apply Hb].
Qed.

(** C9. On a successful run the storage map binds every address of some
    level's access map to the reads of the first level, in level order,
    whose access map has the address, and binds no other address; a later
    level does not change the binding, so two levels with different reads
    for an address give a different map in the other order. *)
Theorem C9_first_level_reads (userOp : UserOperation)
    (tracerResults : BundlerCollectorReturn) (validationResult : ValidationResult)
    (entryPoint_address : string) (addresses : list string)
    (storageMap : gmap string (JSObject string)) :
  parseScannerResult userOp tracerResults validationResult entryPoint_address
    = Ok (addresses, storageMap) ->
  let levels := callsFromEntryPoint tracerResults in
  (forall before level after a info,
     levels = before ++ level :: after ->
     (forall l, In l before -> ~ In a (keys (access l))) ->
     get (access level) a = Some info ->
     storageMap !! a = Some (reads info)) /\
  (forall a,
     (exists l, In l levels /\ In a (keys (access l))) ->
     exists before level after info,
       levels = before ++ level :: after /\
       (forall l, In l before -> ~ In a (keys (access l))) /\
       get (access level) a = Some info /\
       storageMap !! a = Some (reads info)) /\
  (forall a, (forall l, In l levels -> ~ In a (keys (access l))) ->
             storageMap !! a = None) /\
  (forall l1 l2 a i1 i2,
     get (access l1) a = Some i1 ->
     get (access l2) a = Some i2 ->
     reads i1 <> reads i2 ->
     buildStorageMap [l1; l2] !! a = Some (reads i1) /\
     buildStorageMap [l2; l1] !! a = Some (reads i2) /\
     buildStorageMap [l1; l2] <> buildStorageMap [l2; l1]).
Proof.
  intros Hok levels. apply parseScannerResult_Ok in Hok. injection Hok as _ ->.
  fold levels. split; [|split; [|split]].
  - intros before level after a info Hl Hbefore Hget.
    rewrite buildStorageMap_lookup, Hl. now apply firstReads_first.
  - intros a Hex.
    destruct (first_level_with levels a Hex) as (before & level & after & info & Hl & Hb & Hg).
    exists before, level, after, info. repeat (split; [assumption|]).
    rewrite buildStorageMap_lookup, Hl. now apply firstReads_first.
  - intros a Hno. rewrite buildStorageMap_lookup. unfold firstReads.
    destruct (find _ levels) as [l|] eqn:Ef; [|reflexivity].
    apply find_some in Ef. destruct Ef as [Hin Hinc].
    apply includes_In in Hinc. exfalso. now apply (Hno l).
  - intros l1 l2 a i1 i2 H1 H2 Hne.
    assert (E12 : buildStorageMap [l1; l2] !! a = Some (reads i1)).
    { rewrite buildStorageMap_lookup.
      apply (firstReads_first [] [l2] l1 a i1); [intros ? []| assumption]. }
    assert (E21 : buildStorageMap [l2; l1] !! a = Some (reads i2)).
    { rewrite buildStorageMap_lookup.
      apply (firstReads_first [] [l1] l2 a i2); [intros ? []| assumption]. }
    split; [assumption|]. split; [assumption|].
    intros Heq. rewrite Heq, E21 in E12. congruence.
Qed.

End Properties.

(** C4 at a stake of 2 and a delay of 1: unstaked. *)
Lemma C4_staked_threshold_witness :
  (requireCondAndStake (H := Scenario.externals) "account"
     (Some (Scenario.info Scenario.account 2 1)) [] true "unstaked" = Ok tt
   <-> 1 < 2 /\ 1 < 1) /\
  (~ (1 < 2 /\ 1 < 1) ->
   requireCondAndStake (H := Scenario.externals) "account"
     (Some (Scenario.info Scenario.account 2 1)) [] true "unstaked" =
     Throw (RpcError "unstaked" OpcodeValidation
              (Some ("account", Some Scenario.account)))).
Proof.
  apply (C4_staked_threshold (H := Scenario.externals) "account"
           (Scenario.info Scenario.account 2 1) [] "unstaked" 2 1);
    reflexivity.
Defined.

(** C2, where it gives an unstaked account: the entry passes if and only if
    the account is staked. *)
Lemma C2_sender_slots_witness :
  checkAccess (H := Scenario.externals) Scenario.deployingOp Scenario.entryPoint
    Scenario.account Scenario.entities Scenario.accountSlots "account"
    (Some (Scenario.info Scenario.account 0 0)) []
    (Scenario.token, {| reads := Scenario.readsOfAccount; writes := [] |}) = Ok tt
  <-> 1 < 0 /\ 1 < 0.
Proof.
  refine (proj2 (proj2
    (C2_sender_slots (H := Scenario.externals) Scenario.deployingOp Scenario.entryPoint
       Scenario.account Scenario.entities Scenario.accountSlots "account"
       (Some (Scenario.info Scenario.account 0 0)) []
       (Scenario.token, {| reads := Scenario.readsOfAccount; writes := [] |})
       _ _ _)) _ _ (Scenario.info Scenario.account 0 0) 0 0 eq_refl eq_refl eq_refl).
  - discriminate.
  - discriminate.
  - intros slot [<-|[]]. vm_compute. reflexivity.
  - simpl. lia.
  - discriminate.
Defined.

(** Against C2 as stated: the operation carries initCode, the account level
    reads a slot of [token] that belongs to the sender, the account is not
    staked, and validation raises the "unstaked account" violation. *)
Lemma C2_account_needs_stake_with_initCode :
  parseEntitySlots (H := Scenario.externals) Scenario.entities
    (keccak Scenario.traceBalance) = Ok Scenario.accountSlots /\
  associatedWith Scenario.balanceSlot Scenario.account Scenario.accountSlots = Ok true /\
  Scenario.token <> Scenario.account /\
  Scenario.token <> Scenario.entryPoint /\
  parseScannerResult (H := Scenario.externals) Scenario.deployingOp
    Scenario.traceBalance Scenario.unstakedAccount Scenario.entryPoint =
    Throw (RpcError
             ("unstaked account accessed 0x00000000000000000000000000000000000000c3"
                +:+ " slot 0xaa130")
             OpcodeValidation (Some ("account", Some Scenario.account))).
Proof.
  split; [vm_compute; reflexivity|].
  split; [vm_compute; reflexivity|].
  split; [discriminate|].
  split; [discriminate|].
  vm_compute. reflexivity.
Qed.

(** Against C3 as stated: a successful run whose address list holds [token]
    twice, once for each of the two levels that recorded its size. *)
Lemma C3_addresses_repeat :
  exists addresses storageMap,
    parseScannerResult (H := Scenario.externals) Scenario.plainOp
      Scenario.traceTwoLevels Scenario.withPaymaster Scenario.entryPoint
      = Ok (addresses, storageMap) /\
    ~ List.NoDup addresses.
Proof.
  exists [Scenario.account; Scenario.token; Scenario.paymaster; Scenario.token].
  exists {[ Scenario.token := Scenario.readsOfAccount ]}.
  split; [vm_compute; reflexivity|].
  intros Hnd. inversion Hnd as [|? ? _ Hrest]. inversion Hrest as [|? ? Hnotin _].
  apply Hnotin. right. left. reflexivity.
Qed.

(** C3 on the run with two levels. *)
Lemma C3_addresses_witness :
  let levels := callsFromEntryPoint Scenario.traceTwoLevels in
  let addresses :=
    [Scenario.account; Scenario.token; Scenario.paymaster; Scenario.token] in
  addresses = flat_map (fun level => keys (contractSize level)) levels /\
  (forall a, In a addresses <->
             exists level, In level levels /\ In a (keys (contractSize level))) /\
  ((forall level, In level levels -> List.NoDup (keys (contractSize level))) ->
   forall a, count_occ string_dec addresses a = length (levelsWithSize levels a)).
Proof.
  apply (C3_addresses (H := Scenario.externals) Scenario.plainOp
           Scenario.traceTwoLevels Scenario.withPaymaster Scenario.entryPoint
           [Scenario.account; Scenario.token; Scenario.paymaster; Scenario.token]
           {[ Scenario.token := Scenario.readsOfAccount ]}).
  vm_compute. reflexivity.
Defined.

(** C9 on the run with two levels: [token] keeps the reads of the account's
    level. *)
Lemma C9_first_level_reads_witness :
  ({[ Scenario.token := Scenario.readsOfAccount ]} : gmap string (JSObject string))
    !! Scenario.token = Some Scenario.readsOfAccount.
Proof.
  refine (proj1
    (C9_first_level_reads (H := Scenario.externals) Scenario.plainOp
       Scenario.traceTwoLevels Scenario.withPaymaster Scenario.entryPoint
       [Scenario.account; Scenario.token; Scenario.paymaster; Scenario.token]
       {[ Scenario.token := Scenario.readsOfAccount ]} _)
    [] _ _ Scenario.token {| reads := Scenario.readsOfAccount; writes := [] |}
    eq_refl _ eq_refl).
  - vm_compute. reflexivity.
  - intros l [].
Defined.

(** C5 on one preimage of the account: the run returns. *)
Lemma C5_entity_slots_witness :
  exists entitySlots,
    parseEntitySlots (H := Scenario.externals) Scenario.entities
      [Scenario.balancePreimage] = Ok entitySlots.
Proof.
  apply (proj1 (proj2 (C5_entity_slots (H := Scenario.externals) Scenario.entities
                         [Scenario.balancePreimage]))).
  - intros info [[=]|[[= <-]|[[=]|[]]]]. eexists. vm_compute. reflexivity.
  - intros k info p [<-|[]] _ _ _. eexists. vm_compute. reflexivity.
Defined.

(** C6 on a call of [balanceOf] of the entry point. *)
Lemma C6_call_into_entry_point_witness :
  exists call,
    In call (parseCallStack (H := Scenario.externals) Scenario.traceIntoEntryPoint) /\
    IllegalEntryPointCall (toLowerCase Scenario.entryPoint) call /\
    parseScannerResult (H := Scenario.externals) Scenario.plainOp
      Scenario.traceIntoEntryPoint Scenario.unstakedAccount Scenario.entryPoint =
      Throw (RpcError ("illegal call into EntryPoint during validation "
                         +:+ tpl (call_method call)) OpcodeValidation None).
Proof.
  apply (proj1 (C6_call_into_entry_point (H := Scenario.externals) Scenario.plainOp
                  Scenario.traceIntoEntryPoint Scenario.unstakedAccount
                  Scenario.entryPoint)).
  eexists. split.
  - left. reflexivity.
  - vm_compute. repeat split; discriminate.
Defined.

(** C7 on a factory level with two CREATE2. *)
Lemma C7_create2_arity_witness :
  checkCreate2 "factory" [("CREATE2", 2)] =
    Throw (RpcError "factory with too many CREATE2" OpcodeValidation None).
Proof.
  apply (proj1 (proj2 (@C7_create2_arity Scenario.externals [("CREATE2", 2)]))).
  vm_compute. discriminate.
Defined.

(** C1, where the code departs from it. A trace in which the account calls
    [token] with 5 wei passes, and a trace whose only resolved call is a
    deposit to the entry point, with no value anywhere, is rejected with
    "May not may CALL with value". *)
Theorem C1_value_check_inverted :
  (exists call,
     In call (parseCallStack (H := Scenario.externals) Scenario.traceWithValue) /\
     call_to call = Some Scenario.token /\
     call_value call = Some (BNstring "0x5")) /\
  parseScannerResult (H := Scenario.externals) Scenario.plainOp
    Scenario.traceWithValue Scenario.unstakedAccount Scenario.entryPoint =
    Ok ([Scenario.account], ∅) /\
  Forall (fun call => call_value call = None)
    (parseCallStack (H := Scenario.externals) Scenario.traceDepositOnly) /\
  parseScannerResult (H := Scenario.externals) Scenario.plainOp
    Scenario.traceDepositOnly Scenario.unstakedAccount Scenario.entryPoint =
    Throw (RpcError "May not may CALL with value" OpcodeValidation None).
Proof.
  split.
  - eexists. split; [left; reflexivity|]. split; reflexivity.
  - split; [vm_compute; reflexivity|].
    split; [|vm_compute; reflexivity].
    vm_compute. repeat constructor.
Qed.

(** * Further properties *)

(** ** The reconstruction of the call stack *)

Lemma fold_left_invariant {A B} (P : A -> Prop) (Q : B -> Prop) (f : A -> B -> A)
    (l : list B) (a : A) :
  P a -> Forall Q l -> (forall a b, P a -> Q b -> P (f a b)) -> P (fold_left f l a).
Proof.
  intros Ha Hl Hstep. revert a Ha.
  induction Hl as [|b l Hb _ IH]; intros a Ha; cbn [fold_left]; [assumption|].
  apply IH. now apply Hstep.
Qed.

Section CallStackProperties.

Context `{Externals}.

(** What one event does to [out] and [stack]: an exit pops a frame and
    appends the call it resolves, any other event is pushed. *)
Lemma callStep_cases (out : list CallEntry) (stack : list CallEvent) (c : CallEvent) :
  (isExit c = true /\
   exists e, (forall out', callStep (out', stack) c = (out' ++ [e], removelast stack)) /\
             ResolvedFrom (default top_frame (last stack)) e /\
             (call_return e = None <-> call_revert e <> None) /\
             (call_value e <> None ->
              call_revert e <> None /\
              call_value e = ev_value (default top_frame (last stack)) /\
              contains "CREATE" (call_type e) = false) /\
             (contains "CREATE" (call_type e) = true ->
              call_method e = Some "" /\ call_revert e = None)) \/
  (isExit c = false /\ forall out', callStep (out', stack) c = (out', stack ++ [c])).
Proof.
  unfold callStep. fold (isExit c). destruct (isExit c); [left | right; tauto].
  split; [reflexivity|]. set (top := default top_frame (last stack)).
  destruct (contains "CREATE" (ev_type top)) eqn:Ec.
  - eexists. split; [reflexivity|]. unfold ResolvedFrom. cbn.
    repeat split; try congruence; try discriminate; intros Hc; now elim Hc.
  - destruct (seq (ev_type c) "REVERT").
    + eexists. split; [reflexivity|]. unfold ResolvedFrom. cbn.
      rewrite Ec. repeat split; try congruence; discriminate.
    + eexists. split; [reflexivity|]. unfold ResolvedFrom. cbn.
      rewrite Ec. repeat split; try congruence; try discriminate;
        intros Hc; now elim Hc.
Qed.

Lemma callStep_fold_out (evs : list CallEvent) (out : list CallEntry)
    (stack : list CallEvent) :
  fold_left callStep evs (out, stack) =
    (out ++ fst (fold_left callStep evs ([], stack)),
     snd (fold_left callStep evs ([], stack))).
Proof.
  revert out stack. induction evs as [|c evs IH]; intros out stack; cbn [fold_left].
  - cbn. now rewrite app_nil_r.
  - destruct (callStep_cases out stack c) as [(_ & e & He & _)|(_ & He)].
    + rewrite !He. rewrite (IH (out ++ [e])), (IH ([] ++ [e])).
      cbn [fst snd]. now rewrite <- app_assoc.
    + rewrite !He. apply IH.
Qed.

Lemma parseCallStack_fold (tracerResults : BundlerCollectorReturn) :
  parseCallStack tracerResults =
    fst (fold_left callStep (traceEvents tracerResults) ([], [])).
Proof. reflexivity. Qed.

Lemma callStep_fold_length (evs : list CallEvent) (out : list CallEntry)
    (stack : list CallEvent) :
  length (fst (fold_left callStep evs (out, stack))) =
    (length out + length (List.filter isExit evs))%nat.
Proof.
  revert out stack. induction evs as [|c evs IH]; intros out stack;
    cbn [fold_left List.filter].
  - cbn. lia.
  - destruct (callStep_cases out stack c) as [(Hx & e & He & _)|(Hx & He)];
      rewrite He, Hx, IH.
    + rewrite length_app. cbn. lia.
    + reflexivity.
Qed.

(** X1. [parseCallStack] resolves one call for every [RETURN] or [REVERT]
    marker of the trace (depth markers apart), whether or not a call is
    open when the marker comes; a call that is never closed gives no
    entry. *)
Theorem parseCallStack_length (tracerResults : BundlerCollectorReturn) :
  length (parseCallStack tracerResults) =
    length (List.filter isExit (traceEvents tracerResults)).
Proof.
  rewrite parseCallStack_fold, callStep_fold_length. reflexivity.
Qed.

(** X2. A call opcode followed at once by its exit marker resolves that
    very call, wherever it happens: [out] gets one entry with the target,
    the caller and the opcode of the call, and [stack] is as it was. *)
Theorem callStep_enter_exit (out : list CallEntry) (stack : list CallEvent)
    (c e : CallEvent) :
  isExit c = false ->
  isExit e = true ->
  exists entry,
    callStep (callStep (out, stack) c) e = (out ++ [entry], stack) /\
    ResolvedFrom c entry /\
    (call_value entry <> None -> call_value entry = ev_value c).
Proof.
  intros Hc He.
  destruct (callStep_cases out stack c) as [(Hx & _)|(_ & Hpush)]; [congruence|].
  rewrite Hpush.
  destruct (callStep_cases out (stack ++ [c]) e)
    as [(_ & entry & Hpop & Hfrom & _ & Hval & _)|(Hx & _)]; [|congruence].
  rewrite last_snoc in Hfrom, Hval. cbn [default] in Hfrom, Hval.
  exists entry. rewrite Hpop, removelast_last.
  split; [reflexivity|]. split; [assumption|]. intros Hv. now apply Hval.
Qed.

(** X3. Every resolved call has exactly one of [return] and [revert]. One
    that carries a [value] is a reverted call that is not a creation: a
    call that returns loses its value, and a creation is recorded with an
    empty method and as returned even when it reverts. *)
Theorem parseCallStack_entries (tracerResults : BundlerCollectorReturn)
    (entry : CallEntry) :
  In entry (parseCallStack tracerResults) ->
  (call_return entry = None <-> call_revert entry <> None) /\
  (call_value entry <> None ->
   call_revert entry <> None /\ contains "CREATE" (call_type entry) = false) /\
  (contains "CREATE" (call_type entry) = true ->
   call_method entry = Some "" /\ call_revert entry = None).
Proof.
  rewrite parseCallStack_fold.
  set (Good := fun e : CallEntry =>
     (call_return e = None <-> call_revert e <> None) /\
     (call_value e <> None ->
      call_revert e <> None /\ contains "CREATE" (call_type e) = false) /\
     (contains "CREATE" (call_type e) = true ->
      call_method e = Some "" /\ call_revert e = None)).
  intros Hin.
  assert (Hall : Forall Good (fst (fold_left callStep (traceEvents tracerResults) ([], [])))).
  { apply (fold_left_invariant (fun st => Forall Good (fst st)) (fun _ => True)).
    - constructor.
    - apply List.Forall_forall. trivial.
    - intros [out stack] c Hout _. cbn [fst] in Hout.
      destruct (callStep_cases out stack c)
        as [(_ & e & He & _ & H1 & H2 & H3)|(_ & He)]; rewrite He; cbn [fst];
        [|assumption].
      apply Forall_app. split; [assumption|]. constructor; [|constructor].
      split; [assumption|]. split; [|assumption]. intros Hv.
      destruct (H2 Hv) as (? & _ & ?). tauto. }
  rewrite List.Forall_forall in Hall. exact (Hall entry Hin).
Qed.

(** X4. Every resolved call comes from a call opcode of the trace, with its
    target, caller and opcode, or is the made-up top frame (type [top], no
    target, no caller, no value) of an exit marker that found the stack
    empty. *)
Theorem parseCallStack_origin (tracerResults : BundlerCollectorReturn)
    (entry : CallEntry) :
  In entry (parseCallStack tracerResults) ->
  (ResolvedFrom top_frame entry /\ call_value entry = None) \/
  (exists c, In c (traceEvents tracerResults) /\ isExit c = false /\
             ResolvedFrom c entry /\
             (call_value entry <> None -> call_value entry = ev_value c)).
Proof.
  rewrite parseCallStack_fold. set (evs := traceEvents tracerResults).
  set (Origin := fun e : CallEntry =>
     (ResolvedFrom top_frame e /\ call_value e = None) \/
     (exists c, In c evs /\ isExit c = false /\ ResolvedFrom c e /\
                (call_value e <> None -> call_value e = ev_value c))).
  intros Hin.
  assert (Hinv : Forall Origin (fst (fold_left callStep evs ([], []))) /\
                 Forall (fun c => In c evs /\ isExit c = false)
                        (snd (fold_left callStep evs ([], [])))).
  { apply (fold_left_invariant
             (fun st => Forall Origin (fst st) /\
                        Forall (fun c => In c evs /\ isExit c = false) (snd st))
             (fun c => In c evs)).
    - split; constructor.
    - apply List.Forall_forall. trivial.
    - intros [out stack] c [Hout Hstack] Hc. cbn [fst snd] in Hout, Hstack.
      destruct (callStep_cases out stack c)
        as [(_ & e & He & Hfrom & _ & Hval & _)|(Hx & He)]; rewrite He; cbn [fst snd].
      + split.
        * apply Forall_app. split; [assumption|]. constructor; [|constructor].
          destruct (last stack) as [top|] eqn:El; cbn [default] in Hfrom, Hval.
          -- right. exists top. apply last_Some in El. destruct El as [l' ->].
             apply Forall_app in Hstack. destruct Hstack as [_ Htop].
             inversion Htop as [|? ? [Htin Htx] _]. subst.
             split; [assumption|]. split; [assumption|]. split; [assumption|].
             intros Hv. now apply Hval.
          -- left. split; [assumption|].
             destruct (call_value e) eqn:Ev; [|reflexivity].
             destruct Hval as (_ & Hv & _); [discriminate|]. exact Hv.
        * destruct (last stack) as [top|] eqn:El.
          -- apply last_Some in El. destruct El as [l' ->].
             rewrite removelast_last. apply Forall_app in Hstack. tauto.
          -- apply last_None in El. subst. constructor.
      + split; [assumption|]. apply Forall_app. split; [assumption|].
        constructor; [tauto | constructor]. }
  destruct Hinv as [Hout _]. rewrite List.Forall_forall in Hout. exact (Hout entry Hin).
Qed.

(** X17. A call made inside another call is resolved before it: for two
    call opcodes followed by two exit markers, [out] gets the inner call
    and then the outer call, and [stack] is as it was. *)
Theorem callStep_nested (out : list CallEntry) (stack : list CallEvent)
    (outer inner exitInner exitOuter : CallEvent) :
  isExit outer = false ->
  isExit inner = false ->
  isExit exitInner = true ->
  isExit exitOuter = true ->
  exists entryInner entryOuter,
    fold_left callStep [outer; inner; exitInner; exitOuter] (out, stack) =
      (out ++ [entryInner; entryOuter], stack) /\
    ResolvedFrom inner entryInner /\
    ResolvedFrom outer entryOuter.
Proof.
  intros Ho Hi Hei Heo. cbn [fold_left].
  destruct (callStep_cases out stack outer) as [(Hx & _)|(_ & ->)]; [congruence|].
  destruct (callStep_cases out (stack ++ [outer]) inner) as [(Hx & _)|(_ & ->)];
    [congruence|].
  destruct (callStep_cases out ((stack ++ [outer]) ++ [inner]) exitInner)
    as [(_ & e1 & -> & Hf1 & _)|(Hx & _)]; [|congruence].
  rewrite last_snoc in Hf1. rewrite removelast_last. cbn [default] in Hf1.
  destruct (callStep_cases out (stack ++ [outer]) exitOuter)
    as [(_ & e2 & -> & Hf2 & _)|(Hx & _)]; [|congruence].
  rewrite last_snoc in Hf2. rewrite removelast_last. cbn [default] in Hf2.
  exists e1, e2. rewrite <- app_assoc. cbn [app]. tauto.
Qed.

Lemma traceEvents_app (tracerResults : BundlerCollectorReturn)
    (l1 l2 : list TopLevelCallInfo) :
  traceEvents (withLevels tracerResults (l1 ++ l2)) =
    traceEvents (withLevels tracerResults l1) ++ traceEvents (withLevels tracerResults l2).
Proof.
  unfold traceEvents, withLevels. cbn [callsFromEntryPoint].
  now rewrite flat_map_app, List.filter_app.
Qed.

(** X5. The resolved calls of the first levels of a trace are a prefix of
    the resolved calls of the whole trace: later levels only append. When
    the first levels leave no call open, the calls of the whole trace are
    those of the first levels followed by those of the rest on its own. *)
Theorem parseCallStack_app (tracerResults : BundlerCollectorReturn)
    (l1 l2 : list TopLevelCallInfo) :
  (exists rest,
     parseCallStack (withLevels tracerResults (l1 ++ l2)) =
       parseCallStack (withLevels tracerResults l1) ++ rest) /\
  (openFrames (withLevels tracerResults l1) = [] ->
   parseCallStack (withLevels tracerResults (l1 ++ l2)) =
     parseCallStack (withLevels tracerResults l1) ++
     parseCallStack (withLevels tracerResults l2)).
Proof.
  rewrite !parseCallStack_fold, traceEvents_app, fold_left_app.
  destruct (fold_left callStep (traceEvents (withLevels tracerResults l1)) ([], []))
    as [out1 stack1] eqn:E1.
  unfold openFrames. rewrite E1. cbn [fst snd].
  rewrite callStep_fold_out. cbn [fst]. split.
  - eexists. reflexivity.
  - intros ->. reflexivity.
Qed.

End CallStackProperties.

(** ** Loops that can throw *)

Lemma get_Some_pair {V} (o : JSObject V) (k : string) (v : V) :
  get o k = Some v -> In (k, v) o.
Proof.
  induction o as [|[k' v'] o IH]; cbn [get]; [discriminate|].
  destruct (String.eqb_spec k' k) as [->|_].
  - intros [= ->]. now left.
  - intros Hg. right. now apply IH.
Qed.

Lemma forEach_Ok {A} (l : list A) (f : A -> Result unit) :
  forEach l f = Ok tt <-> forall x, In x l -> f x = Ok tt.
Proof.
  induction l as [|x l IH]; cbn [forEach].
  - split; [intros _ ? [] | reflexivity].
  - rewrite bind_Ok. split.
    + intros ([] & Hx & Hl) y [<-|Hy]; [assumption | now apply IH].
    + intros Hall. exists tt. split; [apply Hall; now left|].
      apply IH. intros y Hy. apply Hall. now right.
Qed.

Lemma forEach_first_throw {A} (before after : list A) (x : A) (f : A -> Result unit)
    (e : Exn) :
  (forall y, In y before -> f y = Ok tt) ->
  f x = Throw e ->
  forEach (before ++ x :: after) f = Throw e.
Proof.
  intros Hb Hx. induction before as [|y before IH]; cbn [app forEach].
  - now rewrite Hx.
  - rewrite (Hb y) by now left. cbn [mbind Result_bind].
    apply IH. intros z Hz. apply Hb. now right.
Qed.

Lemma forEachS_invariant {A S} (P : S -> Prop) (f : S -> A -> Result S)
    (l : list A) (s s' : S) :
  P s ->
  (forall s x s', In x l -> P s -> f s x = Ok s' -> P s') ->
  forEachS l f s = Ok s' ->
  P s'.
Proof.
  revert s. induction l as [|x l IH]; intros s Hs Hstep; cbn [forEachS].
  - now intros [= <-].
  - rewrite bind_Ok. intros (s1 & H1 & Hrest).
    apply (IH s1); [| |assumption].
    + apply (Hstep s x s1); [now left | assumption | assumption].
    + intros s2 y s3 Hy. apply Hstep. now right.
Qed.

Section PolicyProperties.

Context `{Externals}.

(** ** The slot sets *)

Lemma entitySlotsStep_lookup (k : string) (es es' : gmap string (list string))
    (info : StakeInfo) :
  entitySlotsStep k es (Some info) = Ok es' ->
  exists p,
    toBytes32 (toLowerCase (addr info)) = Some p /\
    es' !! toLowerCase (addr info) =
      Some (match (if startsWith k p then keccak256 k else None) with
            | Some slot => set_add (slotsOf es (toLowerCase (addr info))) slot
            | None => slotsOf es (toLowerCase (addr info))
            end) /\
    forall b, b <> toLowerCase (addr info) -> es' !! b = es !! b.
Proof.
  unfold entitySlotsStep, slotsOf. set (a := toLowerCase (addr info)).
  destruct (toBytes32 a) as [p|]; cbn [orThrow mbind Result_bind]; [|discriminate].
  intros Hstep. exists p. split; [reflexivity|].
  destruct (startsWith k p).
  - destruct (keccak256 k) as [h|]; cbn [orThrow mbind Result_bind] in Hstep;
      [|discriminate].
    injection Hstep as <-. rewrite lookup_insert_eq. split.
    + destruct (es !! a) as [l|] eqn:Ea; [now rewrite Ea|].
      now rewrite lookup_insert_eq.
    + intros b Hb. rewrite lookup_insert_ne by congruence.
      destruct (es !! a); [reflexivity|]. now rewrite lookup_insert_ne by congruence.
  - injection Hstep as <-. destruct (es !! a) as [l|] eqn:Ea.
    + rewrite Ea. split; reflexivity.
    + rewrite lookup_insert_eq. split; [reflexivity|].
      intros b Hb. now rewrite lookup_insert_ne by congruence.
Qed.

Lemma set_add_NoDup (l : list string) (x : string) :
  List.NoDup l -> List.NoDup (set_add l x).
Proof.
  intros Hnd. unfold set_add. destruct (includes l x) eqn:E; [assumption|].
  apply NoDup_app_remove_l with (l := []). cbn [app].
  apply List.NoDup_rev in Hnd. rewrite <- (rev_involutive (l ++ [x])).
  apply List.NoDup_rev. rewrite rev_app_distr. cbn [rev app].
  constructor; [|assumption]. rewrite <- in_rev, <- includes_In. congruence.
Qed.

Lemma entitySlots_inner_keeps (k : string) (infos : list (option StakeInfo))
    (es es' : gmap string (list string)) (a : string) :
  es !! a <> None ->
  forEachS infos (entitySlotsStep k) es = Ok es' ->
  es' !! a <> None.
Proof.
  intros Hes. apply (forEachS_invariant (fun es => es !! a <> None)); [assumption|].
  intros s [info|] s' _ Hs Hstep; [|cbn in Hstep; now injection Hstep as <-].
  destruct (entitySlotsStep_lookup _ _ _ _ Hstep) as (p & _ & Ha & Hother).
  destruct (decide (a = toLowerCase (addr info))) as [->|Hne].
  - rewrite Ha. discriminate.
  - now rewrite Hother.
Qed.

Lemma entitySlots_inner_key (k : string) (infos : list (option StakeInfo))
    (es es' : gmap string (list string)) (info : StakeInfo) :
  In (Some info) infos ->
  forEachS infos (entitySlotsStep k) es = Ok es' ->
  es' !! toLowerCase (addr info) <> None.
Proof.
  revert es. induction infos as [|i infos IH]; intros es Hin; [destruct Hin|].
  cbn [forEachS]. rewrite bind_Ok. intros (es1 & Hstep & Hrest).
  destruct Hin as [->|Hin]; [|now apply (IH es1)].
  destruct (entitySlotsStep_lookup _ _ _ _ Hstep) as (p & _ & Ha & _).
  apply (entitySlots_inner_keeps k infos es1); [|assumption].
  rewrite Ha. discriminate.
Qed.

(** X6. The slot sets [parseEntitySlots] returns have no repeated slot, and
    their keys are lower-cased entity addresses only. With no preimage at
    all the result is empty, so that no entity has a set; with at least one
    preimage every entity has a set, possibly empty. *)
Theorem parseEntitySlots_sets (stakeInfoEntities : JSObject (option StakeInfo))
    (keccak' : list string) (entitySlots : gmap string (list string)) :
  parseEntitySlots stakeInfoEntities keccak' = Ok entitySlots ->
  (forall a, List.NoDup (slotsOf entitySlots a)) /\
  (forall a, entitySlots !! a <> None ->
             exists info, In (Some info) (values stakeInfoEntities) /\
                          a = toLowerCase (addr info)) /\
  (keccak' = [] -> entitySlots = ∅) /\
  (keccak' <> [] ->
   forall info, In (Some info) (values stakeInfoEntities) ->
                entitySlots !! toLowerCase (addr info) <> None).
Proof.
  unfold parseEntitySlots. set (infos := values stakeInfoEntities). intros Hok.
  assert (Hstep : forall (P : gmap string (list string) -> Prop),
            (forall k es es' info, In (Some info) infos -> P es ->
               entitySlotsStep k es (Some info) = Ok es' -> P es') ->
            forall k es es', P es -> forEachS infos (entitySlotsStep k) es = Ok es' -> P es').
  { intros P HP k es es' Hes. apply forEachS_invariant; [assumption|].
    intros s [info|] s' Hin Hs; [now apply HP|]. cbn. now intros [= <-]. }
  split; [|split; [|split]].
  - revert Hok. apply (forEachS_invariant (fun es => forall a, List.NoDup (slotsOf es a))).
    + intros a. unfold slotsOf. rewrite lookup_empty. constructor.
    + intros es k es' _.
      apply (Hstep (fun es => forall a, List.NoDup (slotsOf es a))). clear es es'.
      intros k' es es' info _ Hes Hs a.
      destruct (entitySlotsStep_lookup _ _ _ _ Hs) as (p & _ & Ha & Hother).
      destruct (decide (a = toLowerCase (addr info))) as [->|Hne].
      * unfold slotsOf at 1. rewrite Ha. cbn [default].
        destruct (if startsWith k' p then keccak256 k' else None);
          [apply set_add_NoDup|]; apply Hes.
      * unfold slotsOf. rewrite Hother by assumption. apply Hes.
  - revert Hok.
    apply (forEachS_invariant
             (fun es => forall a, es !! a <> None ->
                exists info, In (Some info) infos /\ a = toLowerCase (addr info))).
    + intros a. now rewrite lookup_empty.
    + intros es k es' _.
      apply (Hstep (fun es => forall a, es !! a <> None ->
                      exists info, In (Some info) infos /\ a = toLowerCase (addr info))).
      clear es es'.
      intros k' es es' info Hin Hes Hs a Ha.
      destruct (entitySlotsStep_lookup _ _ _ _ Hs) as (p & _ & _ & Hother).
      destruct (decide (a = toLowerCase (addr info))) as [->|Hne].
      * now exists info.
      * rewrite Hother in Ha by assumption. now apply Hes.
  - intros ->. cbn in Hok. now injection Hok as <-.
  - intros Hne info Hin.
    destruct keccak' as [|k ks]; [contradiction|]. cbn [forEachS] in Hok.
    apply bind_Ok in Hok. destruct Hok as (es1 & H1 & Hrest).
    revert Hrest.
    apply (forEachS_invariant (fun es => es !! toLowerCase (addr info) <> None)).
    + now apply (entitySlots_inner_key k infos ∅ es1 info).
    + intros es k0 es' _. apply entitySlots_inner_keeps.
Qed.

(** X7. The slot sets only depend on which preimages were observed: when
    every preimage of one run is also a preimage of another run with the
    same entities, every slot of the first run is a slot of the second. So
    more preimages never take a slot away, and neither their order nor
    their repetition matters. *)
Theorem parseEntitySlots_monotone (stakeInfoEntities : JSObject (option StakeInfo))
    (ks ks' : list string) (es es' : gmap string (list string)) :
  parseEntitySlots stakeInfoEntities ks = Ok es ->
  parseEntitySlots stakeInfoEntities ks' = Ok es' ->
  (forall k, In k ks -> In k ks') ->
  forall a s, In s (slotsOf es a) -> In s (slotsOf es' a).
Proof.
  unfold parseEntitySlots. intros Hes Hes' Hsub a s.
  rewrite (entitySlots_outer _ _ _ _ Hes), (entitySlots_outer _ _ _ _ Hes').
  unfold slotsOf. rewrite lookup_empty. cbn [default].
  intros [[]|(k & info & p & Hk & Hrest)]. right. exists k, info, p.
  split; [now apply Hsub | assumption].
Qed.

(** ** Opcodes *)

Lemma checkBannedOpcodes_Ok (entityTitle : string) (opcodes' : JSObject Z) :
  checkBannedOpcodes entityTitle opcodes' = Ok tt <->
  forall opcode, In opcode (keys opcodes') -> ~ In opcode bannedOpCodes.
Proof.
  unfold checkBannedOpcodes. rewrite forEach_Ok. split.
  - intros Hall opcode Hin Hb. specialize (Hall opcode Hin).
    apply includes_In in Hb. rewrite Hb in Hall. discriminate.
  - intros Hall opcode Hin. destruct (includes bannedOpCodes opcode) eqn:E;
      [|reflexivity].
    apply includes_In in E. now elim (Hall opcode Hin).
Qed.

(** X8. The banned-opcode check passes exactly when no key of the opcode
    histogram is on the list, whatever the counts; otherwise it raises the
    violation that names the entity and the first banned key of the
    histogram. *)
Theorem checkBannedOpcodes_first (entityTitle : string) (opcodes' : JSObject Z) :
  (checkBannedOpcodes entityTitle opcodes' = Ok tt <->
   forall opcode, In opcode (keys opcodes') -> ~ In opcode bannedOpCodes) /\
  (forall before opcode after,
     keys opcodes' = before ++ opcode :: after ->
     (forall o, In o before -> ~ In o bannedOpCodes) ->
     In opcode bannedOpCodes ->
     checkBannedOpcodes entityTitle opcodes' =
       Throw (RpcError (entityTitle +:+ " uses banned opcode: " +:+ opcode)
                OpcodeValidation None)).
Proof.
  split; [apply checkBannedOpcodes_Ok|]. unfold checkBannedOpcodes.
  intros before opcode after -> Hbefore Hb. apply forEach_first_throw.
  - intros o Ho. destruct (includes bannedOpCodes o) eqn:E; [|reflexivity].
    apply includes_In in E. now elim (Hbefore o Ho).
  - apply includes_In in Hb. now rewrite Hb.
Qed.

(** ** What a successful run has checked *)

Lemma parseScannerResult_Ok_checks (userOp : UserOperation)
    (tracerResults : BundlerCollectorReturn) (validationResult : ValidationResult)
    (entryPoint_address : string) (r : list string * gmap string (JSObject string)) :
  parseScannerResult userOp tracerResults validationResult entryPoint_address = Ok r ->
  let ep := toLowerCase entryPoint_address in
  let callStack := parseCallStack tracerResults in
  callsFromEntryPoint tracerResults <> [] /\
  checkCallIntoEntryPoint ep callStack = Ok tt /\
  checkCallWithValue ep callStack = Ok tt /\
  exists entitySlots,
    parseEntitySlots (stakeInfoEntitiesOf validationResult) (keccak tracerResults)
      = Ok entitySlots /\
    forall e, In e (stakeInfoEntitiesOf validationResult) ->
      checkEntity userOp ep (toLowerCase (sender userOp)) callStack
        (stakeInfoEntitiesOf validationResult) entitySlots e.1 e.2
        (callsFromEntryPoint tracerResults) = Ok tt.
Proof.
  unfold parseScannerResult. cbv zeta. fold (stakeInfoEntitiesOf validationResult).
  destruct (callsFromEntryPoint tracerResults) as [|level levels] eqn:El;
    [discriminate|].
  cbn [length Nat.ltb Nat.leb]. intros Hok.
  apply bind_Ok in Hok. destruct Hok as ([] & Hep & Hok).
  apply bind_Ok in Hok. destruct Hok as ([] & Hval & Hok).
  apply bind_Ok in Hok. destruct Hok as (es & Hes & Hok).
  apply bind_Ok in Hok. destruct Hok as ([] & Hent & _).
  split; [discriminate|]. split; [assumption|]. split; [assumption|].
  exists es. split; [assumption|]. now apply forEach_Ok.
Qed.

Lemma findS_Some {A} (p : A -> nat -> Result (bool * nat)) (l : list A) (next : nat)
    (x : A) :
  findS p l next = Ok (Some x) ->
  In x l /\ exists n n', p x n = Ok (true, n').
Proof.
  revert next. induction l as [|y l IH]; intros next; cbn [findS]; [discriminate|].
  rewrite bind_Ok. intros ([b n'] & Hp & Hrest). destruct b.
  - injection Hrest as <-. split; [now left | eauto].
  - destruct (IH _ Hrest) as [Hin Hex]. split; [now right | assumption].
Qed.

Lemma checkEntity_level (userOp : UserOperation) (ep sender' : string)
    (callStack : list CallEntry) (entities : JSObject (option StakeInfo))
    (entitySlots : gmap string (list string)) (entityTitle : string)
    (entStakes : option StakeInfo) (levels : list TopLevelCallInfo)
    (level : TopLevelCallInfo) :
  entityLevel entityTitle levels = Some level ->
  checkEntity userOp ep sender' callStack entities entitySlots entityTitle entStakes
    levels =
    (checkOog entityTitle level ;;
     checkBannedOpcodes entityTitle (opcodes level) ;;
     checkCreate2 entityTitle (opcodes level) ;;
     forEach (access level)
       (checkAccess userOp ep sender' entities entitySlots entityTitle entStakes
          (access level)) ;;
     checkPaymasterContext callStack entityTitle entStakes (access level) ;;
     checkUndeployed sender' entityTitle (contractSize level)).
Proof.
  unfold entityLevel, checkEntity. now intros ->.
Qed.

Lemma checkUndeployed_Ok (sender' entityTitle : string) (contractSize' : JSObject Z) :
  checkUndeployed sender' entityTitle contractSize' = Ok tt <->
  forall a n, get contractSize' a = Some n -> a <> sender' -> 2 < n.
Proof.
  unfold checkUndeployed.
  destruct (find _ (keys contractSize')) as [a|] eqn:Ef; cbn.
  - split; [discriminate|]. intros Hall. exfalso.
    apply find_some in Ef. destruct Ef as [Hin Hp].
    apply andb_true_iff in Hp. destruct Hp as [Hs Hn].
    destruct (get contractSize' a) as [n|] eqn:Eg; [|discriminate].
    apply negb_true_iff, String.eqb_neq in Hs. apply Z.leb_le in Hn.
    specialize (Hall a n Eg Hs). lia.
  - split; [|reflexivity]. intros _ a n Hg Hne.
    eapply find_none in Ef; [|eapply get_Some_keys; exact Hg].
    cbv beta in Ef. rewrite Hg in Ef. apply andb_false_iff in Ef.
    destruct Ef as [Ef|Ef].
    + apply negb_false_iff, String.eqb_eq in Ef. contradiction.
    + apply Z.leb_gt in Ef. lia.
Qed.

Lemma checkCreate2_Ok (entityTitle : string) (opcodes' : JSObject Z) :
  checkCreate2 entityTitle opcodes' = Ok tt <->
  (entityTitle = "factory" /\ default 0 (get opcodes' "CREATE2") <= 1) \/
  (entityTitle <> "factory" /\ ~ In "CREATE2" (keys opcodes')).
Proof.
  unfold checkCreate2, seq. destruct (String.eqb_spec entityTitle "factory") as [E|E].
  - destruct (Z.leb_spec (default 0 (get opcodes' "CREATE2")) 1); cbn.
    + split; [left; tauto | reflexivity].
    + split; [discriminate | intros [[_ ?]|[? _]]; [lia | contradiction]].
  - rewrite <- get_None. destruct (get opcodes' "CREATE2"); cbn.
    + split; [discriminate | intros [[? _]|[_ ?]]; [contradiction | discriminate]].
    + split; [right; tauto | reflexivity].
Qed.

(** X9. A successful run has a trace with at least one level and a level
    for the account, no resolved call that is an illegal call into the
    entry point, and at least one resolved call whose target is not the
    entry point. *)
Theorem parseScannerResult_Ok_shape (userOp : UserOperation)
    (tracerResults : BundlerCollectorReturn) (validationResult : ValidationResult)
    (entryPoint_address : string) (r : list string * gmap string (JSObject string)) :
  parseScannerResult userOp tracerResults validationResult entryPoint_address = Ok r ->
  let ep := toLowerCase entryPoint_address in
  let callStack := parseCallStack tracerResults in
  callsFromEntryPoint tracerResults <> [] /\
  (exists level, entityLevel "account" (callsFromEntryPoint tracerResults) = Some level) /\
  (forall call, In call callStack -> ~ IllegalEntryPointCall ep call) /\
  (exists call, In call callStack /\ call_to call <> Some ep).
Proof.
  intros Hok ep callStack.
  destruct (parseScannerResult_Ok_checks _ _ _ _ _ Hok)
    as (Hne & Hep & Hval & es & _ & Hent).
  fold ep callStack in Hep, Hval, Hent.
  split; [assumption|]. split; [|split].
  - specialize (Hent ("account", senderInfo validationResult)).
    cbn [fst snd] in Hent. unfold checkEntity in Hent. unfold entityLevel.
    destruct (find _ (callsFromEntryPoint tracerResults)) as [level|]; [eauto|].
    cbn in Hent. discriminate Hent. right. left. reflexivity.
  - intros call Hin Hbad. unfold checkCallIntoEntryPoint in Hep.
    destruct (find (isCallIntoEntryPoint ep) callStack) eqn:Ef; [discriminate|].
    eapply find_none in Ef; [|exact Hin].
    apply isCallIntoEntryPoint_spec in Hbad. congruence.
  - unfold checkCallWithValue in Hval. apply bind_Ok in Hval.
    destruct Hval as ([call|] & Hfind & Hreq); [|discriminate].
    destruct (findS_Some _ _ _ _ Hfind) as (Hin & n & n' & Hp).
    exists call. split; [assumption|]. unfold isCallWithValue in Hp.
    destruct (seq_opt (call_to call) ep) eqn:E; [discriminate|].
    now apply seq_opt_false.
Qed.

(** X10. On a successful run the level of every entity (the first level
    with the entity's selector) has no out-of-gas mark and no banned opcode,
    has at most one CREATE2 for the factory and none for the account and
    the paymaster, and records no contract of size 2 or less other than the
    sender. *)
Theorem parseScannerResult_Ok_levels (userOp : UserOperation)
    (tracerResults : BundlerCollectorReturn) (validationResult : ValidationResult)
    (entryPoint_address : string) (r : list string * gmap string (JSObject string))
    (entityTitle : string) (level : TopLevelCallInfo) :
  parseScannerResult userOp tracerResults validationResult entryPoint_address = Ok r ->
  In entityTitle ["factory"; "account"; "paymaster"] ->
  entityLevel entityTitle (callsFromEntryPoint tracerResults) = Some level ->
  oog level <> Some true /\
  (forall opcode, In opcode (keys (opcodes level)) -> ~ In opcode bannedOpCodes) /\
  (entityTitle = "factory" -> default 0 (get (opcodes level) "CREATE2") <= 1) /\
  (entityTitle <> "factory" -> ~ In "CREATE2" (keys (opcodes level))) /\
  (forall a n, get (contractSize level) a = Some n ->
               a <> toLowerCase (sender userOp) -> 2 < n).
Proof.
  intros Hok Htitle Hlevel.
  destruct (parseScannerResult_Ok_checks _ _ _ _ _ Hok) as (_ & _ & _ & es & _ & Hent).
  assert (Hin : exists info, In (entityTitle, info) (stakeInfoEntitiesOf validationResult)).
  { unfold stakeInfoEntitiesOf.
    destruct Htitle as [<-|[<-|[<-|[]]]]; eexists; cbn; eauto. }
  destruct Hin as [info Hin]. specialize (Hent _ Hin). cbn [fst snd] in Hent.
  rewrite (checkEntity_level _ _ _ _ _ _ _ _ _ _ Hlevel) in Hent.
  apply bind_Ok in Hent. destruct Hent as ([] & Hoog & Hent).
  apply bind_Ok in Hent. destruct Hent as ([] & Hbanned & Hent).
  apply bind_Ok in Hent. destruct Hent as ([] & Hc2 & Hent).
  apply bind_Ok in Hent. destruct Hent as ([] & _ & Hent).
  apply bind_Ok in Hent. destruct Hent as ([] & _ & Hsize).
  split; [|split; [|split; [|split]]].
  - unfold checkOog in Hoog. intros E. rewrite E in Hoog. discriminate.
  - exact (proj1 (checkBannedOpcodes_Ok _ _) Hbanned).
  - intros ->. apply checkCreate2_Ok in Hc2. destruct Hc2 as [[_ ?]|[? _]]; tauto.
  - intros Hne. apply checkCreate2_Ok in Hc2. destruct Hc2 as [[? _]|[_ ?]]; tauto.
  - exact (proj1 (checkUndeployed_Ok _ _ _) Hsize).
Qed.

(** ** Storage access *)

Lemma forEachS_app {A S} (l1 l2 : list A) (f : S -> A -> Result S) (s : S) :
  forEachS (l1 ++ l2) f s = forEachS l1 f s ≫= forEachS l2 f.
Proof.
  revert s. induction l1 as [|x l1 IH]; intros s; cbn [app forEachS].
  - reflexivity.
  - destruct (f s x) as [s1|e]; cbn [mbind Result_bind]; [apply IH | reflexivity].
Qed.

Lemma slotStep_Ok (userOp : UserOperation) (sender' : string)
    (entities : JSObject (option StakeInfo)) (entitySlots : gmap string (list string))
    (entityTitle : string) (entStakes : option StakeInfo) (a : string)
    (writes' : JSObject Z) (requireStakeSlot r : option string) (slot : string) :
  slotStep userOp sender' entities entitySlots entityTitle entStakes a writes'
    requireStakeSlot slot = Ok r ->
  r = Some slot \/
  (r = requireStakeSlot /\
   associatedWith slot sender' entitySlots = Ok true /\
   (String.length (initCode userOp) <= 2)%nat).
Proof.
  unfold slotStep.
  destruct (associatedWith slot sender' entitySlots) as [[|]|];
    cbn [mbind Result_bind]; [| |discriminate].
  - destruct (Nat.ltb_spec 2 (String.length (initCode userOp))); intros [= <-];
      [now left | right]. repeat split. lia.
  - destruct (associatedWith slot (entityAddr entStakes) entitySlots) as [[|]|];
      cbn [mbind Result_bind]; [intros [= <-]; now left | | discriminate].
    destruct (seq a (entityAddr entStakes)); [intros [= <-]; now left | discriminate].
Qed.

Lemma forEachS_slotStep_Ok (userOp : UserOperation) (sender' : string)
    (entities : JSObject (option StakeInfo)) (entitySlots : gmap string (list string))
    (entityTitle : string) (entStakes : option StakeInfo) (a : string)
    (writes' : JSObject Z) (slots : list string) (requireStakeSlot r : option string) :
  forEachS slots
    (slotStep userOp sender' entities entitySlots entityTitle entStakes a writes')
    requireStakeSlot = Ok r ->
  (r = requireStakeSlot /\ NoStakeNeeded userOp sender' entitySlots slots) \/
  (exists s, In s slots /\ r = Some s).
Proof.
  revert requireStakeSlot. induction slots as [|slot slots IH]; intros rss;
    cbn [forEachS].
  - intros [= <-]. left. split; [reflexivity | now left].
  - rewrite bind_Ok. intros (r1 & Hstep & Hrest).
    destruct (IH _ Hrest) as [[-> Hno]|(s & Hs & ->)].
    + destruct (slotStep_Ok _ _ _ _ _ _ _ _ _ _ _ Hstep) as [->|(-> & Ha & Hlen)].
      * right. exists slot. split; [now left | reflexivity].
      * left. split; [reflexivity|]. right. split; [assumption|].
        intros slot' [<-|Hin]; [assumption|].
        destruct Hno as [->|[_ Hall]]; [destruct Hin | now apply Hall].
    + right. exists s. split; [now right | reflexivity].
Qed.

Lemma requireCondAndStake_true_Ok (entityTitle : string) (entStakes : option StakeInfo)
    (access' : JSObject AccessInfo) (failureMessage : string) :
  requireCondAndStake entityTitle entStakes access' true failureMessage = Ok tt ->
  exists info, entStakes = Some info /\ Staked info.
Proof.
  unfold requireCondAndStake, one_lt. cbn [negb].
  destruct entStakes as [info|]; [|discriminate]. intros Hok. exists info.
  split; [reflexivity|]. unfold Staked.
  destruct (BigNumber_value (stake info)) as [s|];
    cbn [orThrow mbind Result_bind] in Hok; [|discriminate].
  destruct (Z.ltb_spec 1 s); [|discriminate].
  destruct (BigNumber_value (unstakeDelaySec info)) as [d|];
    cbn [orThrow mbind Result_bind] in Hok; [|discriminate].
  destruct (Z.ltb_spec 1 d); [|discriminate].
  exists s, d. tauto.
Qed.

(** X11. An entry of the access map at an address that is neither the
    sender nor the entry point passes in two cases only: it asks for no
    stake (it has no slot, or the operation has no initCode and every slot
    belongs to the sender), and then it passes even for an entity with no
    stake record; or the entity is staked. *)
Theorem checkAccess_passes (userOp : UserOperation) (ep sender' : string)
    (entities : JSObject (option StakeInfo)) (entitySlots : gmap string (list string))
    (entityTitle : string) (entStakes : option StakeInfo)
    (access' : JSObject AccessInfo) (entry : string * AccessInfo) :
  entry.1 <> sender' ->
  entry.1 <> ep ->
  let slots := keys (writes entry.2) ++ keys (reads entry.2) in
  (NoStakeNeeded userOp sender' entitySlots slots ->
   checkAccess userOp ep sender' entities entitySlots entityTitle entStakes access'
     entry = Ok tt) /\
  (checkAccess userOp ep sender' entities entitySlots entityTitle entStakes access'
     entry = Ok tt ->
   NoStakeNeeded userOp sender' entitySlots slots \/
   exists info, entStakes = Some info /\ Staked info).
Proof.
  intros Hns Hne slots. unfold checkAccess, seq.
  rewrite (proj2 (String.eqb_neq _ _) Hns), (proj2 (String.eqb_neq _ _) Hne).
  fold slots. split.
  - intros [Hnil|[Hlen Hall]].
    + rewrite Hnil. reflexivity.
    + rewrite forEachS_sender_slots by exact Hall.
      apply Nat.ltb_ge in Hlen. rewrite Hlen. reflexivity.
  - rewrite bind_Ok. intros (r & Hloop & Hstake).
    destruct (forEachS_slotStep_Ok _ _ _ _ _ _ _ _ _ _ _ Hloop) as [[_ Hno]|(s & _ & ->)].
    + now left.
    + right. cbn [isSome] in Hstake.
      now apply requireCondAndStake_true_Ok in Hstake.
Qed.

Lemma slotStep_forbidden (userOp : UserOperation) (sender' : string)
    (entities : JSObject (option StakeInfo)) (entitySlots : gmap string (list string))
    (entityTitle : string) (entStakes : option StakeInfo) (a : string)
    (writes' : JSObject Z) (requireStakeSlot : option string) (slot : string) :
  a <> entityAddr entStakes ->
  associatedWith slot sender' entitySlots = Ok false ->
  associatedWith slot (entityAddr entStakes) entitySlots = Ok false ->
  slotStep userOp sender' entities entitySlots entityTitle entStakes a writes'
    requireStakeSlot slot =
    Throw (RpcError
             (entityTitle +:+ " has forbidden "
                +:+ (if includes (keys writes') a then "write to" else "read from")
                +:+ " " +:+ nameAddr entities a +:+ " slot " +:+ slot)
             OpcodeValidation (Some (entityTitle, addr <$> entStakes))).
Proof.
  intros Hnent Hs He. unfold slotStep. rewrite Hs. cbn [mbind Result_bind].
  rewrite He. cbn [mbind Result_bind].
  unfold seq. rewrite (proj2 (String.eqb_neq _ _) Hnent). reflexivity.
Qed.

(** X12. A slot at an address that is neither the sender, the entry point
    nor the entity, and that belongs neither to the sender nor to the
    entity, is a violation whether or not the entity is staked, as soon as
    the slots scanned before it pass. The message says "write to" only when
    the touched address is itself a key of [writes]; for a written slot of
    any other address it says "read from". *)
Theorem checkAccess_forbidden (userOp : UserOperation) (ep sender' : string)
    (entities : JSObject (option StakeInfo)) (entitySlots : gmap string (list string))
    (entityTitle : string) (entStakes : option StakeInfo)
    (access' : JSObject AccessInfo) (entry : string * AccessInfo)
    (before after : list string) (slot : string) :
  entry.1 <> sender' ->
  entry.1 <> ep ->
  entry.1 <> entityAddr entStakes ->
  keys (writes entry.2) ++ keys (reads entry.2) = before ++ slot :: after ->
  (forall s, In s before -> associatedWith s sender' entitySlots = Ok true) ->
  associatedWith slot sender' entitySlots = Ok false ->
  associatedWith slot (entityAddr entStakes) entitySlots = Ok false ->
  checkAccess userOp ep sender' entities entitySlots entityTitle entStakes access'
    entry =
    Throw (RpcError
             (entityTitle +:+ " has forbidden "
                +:+ (if includes (keys (writes entry.2)) entry.1
                     then "write to" else "read from")
                +:+ " " +:+ nameAddr entities entry.1 +:+ " slot " +:+ slot)
             OpcodeValidation (Some (entityTitle, addr <$> entStakes))).
Proof.
  intros Hns Hne Hnent Hslots Hbefore Hs He. unfold checkAccess, seq.
  rewrite (proj2 (String.eqb_neq _ _) Hns), (proj2 (String.eqb_neq _ _) Hne).
  rewrite Hslots, forEachS_app, forEachS_sender_slots by exact Hbefore.
  cbn [mbind Result_bind forEachS].
  rewrite slotStep_forbidden by assumption. reflexivity.
Qed.

(** ** Levels that pass *)

Lemma CleanLevel_checks (userOp : UserOperation) (ep sender' : string)
    (callStack : list CallEntry) (entities : JSObject (option StakeInfo))
    (entitySlots : gmap string (list string)) (entityTitle : string)
    (entStakes : option StakeInfo) (level : TopLevelCallInfo) :
  CleanLevel sender' ep callStack entityTitle entStakes level ->
  checkOog entityTitle level = Ok tt /\
  checkBannedOpcodes entityTitle (opcodes level) = Ok tt /\
  checkCreate2 entityTitle (opcodes level) = Ok tt /\
  forEach (access level)
    (checkAccess userOp ep sender' entities entitySlots entityTitle entStakes
       (access level)) = Ok tt /\
  checkPaymasterContext callStack entityTitle entStakes (access level) = Ok tt /\
  checkUndeployed sender' entityTitle (contractSize level) = Ok tt.
Proof.
  intros (Hoog & Hbanned & Hc2 & Haccess & Hpm & Hsize).
  split; [|split; [|split; [|split; [|split]]]].
  - unfold checkOog. destruct (oog level) as [[|]|]; [contradiction | |]; reflexivity.
  - now apply checkBannedOpcodes_Ok.
  - apply checkCreate2_Ok. destruct (string_dec entityTitle "factory") as [E|E].
    + left. split; [assumption|]. apply get_None in Hc2. rewrite Hc2. cbn. lia.
    + right. tauto.
  - apply forEach_Ok. intros entry Hin. unfold checkAccess, seq.
    destruct (Haccess entry.1) as [->| ->].
    + unfold keys. now apply in_map.
    + now rewrite String.eqb_refl.
    + rewrite String.eqb_refl. now destruct (ep =? sender')%string.
  - unfold checkPaymasterContext, seq.
    destruct (String.eqb_spec entityTitle "paymaster") as [E|E]; [|reflexivity].
    destruct (find _ callStack) as [call|] eqn:Ef; [|reflexivity].
    apply find_some in Ef. destruct Ef as [Hin Hp].
    apply andb_true_iff in Hp. destruct Hp as [Hm Ht].
    apply seq_opt_true in Hm, Ht. now elim (Hpm E call Hin).
  - now apply checkUndeployed_Ok.
Qed.

Ltac run_checks Hchecks :=
  destruct Hchecks as (-> & -> & -> & -> & -> & ->); reflexivity.

(** X13. The checks of an entity pass on a clean level, with or without a
    stake record and whatever the stake: a level that is not out of gas,
    has no banned opcode and no CREATE2, touches storage of the sender and
    of the entry point only, resolves no [validatePaymasterUserOp] of the
    paymaster, and records no contract of size 2 or less but the sender. *)
Theorem checkEntity_clean (userOp : UserOperation) (ep sender' : string)
    (callStack : list CallEntry) (entities : JSObject (option StakeInfo))
    (entitySlots : gmap string (list string)) (entityTitle : string)
    (entStakes : option StakeInfo) (levels : list TopLevelCallInfo)
    (level : TopLevelCallInfo) :
  entityLevel entityTitle levels = Some level ->
  CleanLevel sender' ep callStack entityTitle entStakes level ->
  checkEntity userOp ep sender' callStack entities entitySlots entityTitle entStakes
    levels = Ok tt.
Proof.
  intros Hlevel Hclean.
  rewrite (checkEntity_level _ _ _ _ _ _ _ _ _ _ Hlevel).
  pose proof (CleanLevel_checks userOp ep sender' callStack entities entitySlots
                entityTitle entStakes level Hclean) as Hchecks.
  run_checks Hchecks.
Qed.

(** X16. The storage map of a list of levels followed by another is the
    map of the first list, completed, for the addresses it does not bind,
    by the map of the second. *)
Theorem buildStorageMap_app (l1 l2 : list TopLevelCallInfo) (a : string) :
  buildStorageMap (l1 ++ l2) !! a =
    match buildStorageMap l1 !! a with
    | Some r => Some r
    | None => buildStorageMap l2 !! a
    end.
Proof.
  unfold buildStorageMap at 1. rewrite fold_left_app.
  fold (buildStorageMap l1). rewrite buildStorageMap_from.
  now rewrite (buildStorageMap_lookup l2).
Qed.

(** X14. The value check, as written, passes exactly when some resolved
    call has a target other than the entry point, and otherwise raises
    "May not may CALL with value": the values of the calls have no part in
    it. *)
Theorem checkCallWithValue_targets (ep : string) (callStack : list CallEntry) :
  Forall (fun call =>
            exists v, BigNumber_value (default (BNnumber 0) (call_value call)) = Some v)
         callStack ->
  (checkCallWithValue ep callStack = Ok tt <->
   exists call, In call callStack /\ call_to call <> Some ep) /\
  ((forall call, In call callStack -> call_to call = Some ep) ->
   checkCallWithValue ep callStack =
     Throw (RpcError "May not may CALL with value" OpcodeValidation None)).
Proof.
  intros Hall. split; [now apply checkCallWithValue_spec|].
  intros Hep. unfold checkCallWithValue. rewrite findS_isCallWithValue by assumption.
  destruct (find _ callStack) as [call|] eqn:Ef; [|reflexivity].
  apply find_some in Ef. destruct Ef as [Hin Hp].
  apply negb_true_iff, seq_opt_false in Hp. now elim Hp; apply Hep.
Qed.

(** X15. A trace is accepted, with the addresses and the storage map of
    its levels, when it has a level for the account, every entity's level
    is clean, no resolved call is an illegal call into the entry point,
    some resolved call has a target other than the entry point, the
    addresses of the entities can be padded, and the hash takes every
    preimage that starts with a padded entity address. *)
Theorem parseScannerResult_accepts (userOp : UserOperation)
    (tracerResults : BundlerCollectorReturn) (validationResult : ValidationResult)
    (entryPoint_address : string) :
  let ep := toLowerCase entryPoint_address in
  let callStack := parseCallStack tracerResults in
  let levels := callsFromEntryPoint tracerResults in
  (exists level, entityLevel "account" levels = Some level) ->
  (forall e level,
     In e (stakeInfoEntitiesOf validationResult) ->
     entityLevel e.1 levels = Some level ->
     CleanLevel (toLowerCase (sender userOp)) ep callStack e.1 e.2 level) ->
  (forall call, In call callStack -> ~ IllegalEntryPointCall ep call) ->
  (exists call, In call callStack /\ call_to call <> Some ep) ->
  Forall (fun call =>
            exists v, BigNumber_value (default (BNnumber 0) (call_value call)) = Some v)
         callStack ->
  (forall info, In (Some info) (values (stakeInfoEntitiesOf validationResult)) ->
                exists p, toBytes32 (toLowerCase (addr info)) = Some p) ->
  (forall k info p,
     In k (keccak tracerResults) ->
     In (Some info) (values (stakeInfoEntitiesOf validationResult)) ->
     toBytes32 (toLowerCase (addr info)) = Some p ->
     startsWith k p = true ->
     exists h, keccak256 k = Some h) ->
  parseScannerResult userOp tracerResults validationResult entryPoint_address =
    Ok (collectAddresses levels, buildStorageMap levels).
Proof.
  intros ep callStack levels [level0 Hacc] Hclean Hlegal Hcall Hvalues Hpad Hhash.
  assert (Hlen : (length (callsFromEntryPoint tracerResults) <? 1)%nat = false).
  { unfold levels, entityLevel in Hacc.
    destruct (callsFromEntryPoint tracerResults); [discriminate Hacc | reflexivity]. }
  assert (E1 : checkCallIntoEntryPoint ep callStack = Ok tt).
  { unfold checkCallIntoEntryPoint.
    destruct (find (isCallIntoEntryPoint ep) callStack) as [call|] eqn:Ef; [|reflexivity].
    apply find_some in Ef. destruct Ef as [Hin Hp].
    apply isCallIntoEntryPoint_spec in Hp. now elim (Hlegal call Hin). }
  destruct (entitySlots_total _ (keccak tracerResults) Hpad Hhash ∅) as [es Hes].
  assert (E2 : forEach (stakeInfoEntitiesOf validationResult)
                 (fun e => checkEntity userOp ep (toLowerCase (sender userOp)) callStack
                             (stakeInfoEntitiesOf validationResult) es e.1 e.2 levels)
               = Ok tt).
  { apply forEach_Ok. intros e He.
    destruct (entityLevel e.1 levels) as [level|] eqn:Elv.
    - rewrite (checkEntity_level _ _ _ _ _ _ _ _ _ _ Elv).
      pose proof (CleanLevel_checks userOp ep (toLowerCase (sender userOp)) callStack
                    (stakeInfoEntitiesOf validationResult) es e.1 e.2 level
                    (Hclean e level He Elv)) as Hchecks.
      run_checks Hchecks.
    - unfold checkEntity. unfold entityLevel in Elv. rewrite Elv.
      unfold stakeInfoEntitiesOf in He.
      destruct He as [<-|[<-|[<-|[]]]]; cbn [fst]; try reflexivity.
      unfold entityLevel in Hacc. cbn [fst] in Elv. congruence. }
  unfold parseScannerResult. cbv zeta. rewrite Hlen.
  fold (stakeInfoEntitiesOf validationResult). fold ep. fold callStack.
  rewrite E1, (proj2 (checkCallWithValue_spec ep callStack Hvalues) Hcall).
  cbn [mbind Result_bind]. unfold parseEntitySlots. rewrite Hes.
  cbn [mbind Result_bind]. fold levels. rewrite E2. reflexivity.
Qed.

(** ** The paymaster's context *)




(** ** Slots of the entity *)

(** X18. [associatedWith] answers true exactly when the slot is the address
    left-padded to 32 bytes, or its number lies in [k, k + 128) for a slot
    [k] of the set kept under that address, for a slot and a set that hold
    numbers. *)
Theorem associatedWith_range (slot addr' : string)
    (entitySlots : gmap string (list string)) (p : string) (n : Z) :
  hexZeroPad addr' 32 = Some p ->
  BigNumber_value (BNstring slot) = Some n ->
  forallb holdsNumber (slotsOf entitySlots addr') = true ->
  (associatedWith slot addr' entitySlots = Ok true <->
   slot = toLowerCase p \/
   exists k1 kn, In k1 (slotsOf entitySlots addr') /\
                 BigNumber_value (BNstring k1) = Some kn /\ kn <= n < kn + 128) /\
  (associatedWith slot addr' entitySlots = Ok false <->
   slot <> toLowerCase p /\
   forall k1 kn, In k1 (slotsOf entitySlots addr') ->
                 BigNumber_value (BNstring k1) = Some kn -> ~ (kn <= n < kn + 128)).
Proof.
  intros Hp Hn Hk.
  destruct (associatedWith_spec slot addr' entitySlots p n Hp Hn Hk) as (b & Hb & Hiff).
  unfold InStructure in Hiff. rewrite Hb. split.
  - split.
    + intros [= ->]. destruct (proj1 Hiff eq_refl) as [?|(k1 & Hin & kn & ? & ?)];
        [now left | right; exists k1, kn; tauto].
    + intros Hr. f_equal. apply Hiff. destruct Hr as [?|(k1 & kn & Hin & ? & ?)];
        [now left | right; exists k1; split; [assumption | exists kn; tauto]].
  - split.
    + intros [= ->]. split.
      * intros E. assert (false = true) by (apply Hiff; now left). discriminate.
      * intros k1 kn Hin Hkn Hr. assert (false = true); [|discriminate].
        apply Hiff. right. exists k1. split; [assumption|]. exists kn. tauto.
    + intros [Hne Hall]. f_equal. destruct b; [|reflexivity]. exfalso.
      destruct (proj1 Hiff eq_refl) as [?|(k1 & Hin & kn & Hkn & Hr)];
        [contradiction|]. exact (Hall k1 kn Hin Hkn Hr).
Qed.

Lemma forEachS_entity_slots (userOp : UserOperation) (sender' : string)
    (entities : JSObject (option StakeInfo)) (entitySlots : gmap string (list string))
    (entityTitle : string) (entStakes : option StakeInfo) (a : string)
    (writes' : JSObject Z) (slots : list string) (requireStakeSlot : option string) :
  (forall slot, In slot slots ->
     associatedWith slot sender' entitySlots = Ok false /\
     associatedWith slot (entityAddr entStakes) entitySlots = Ok true) ->
  forEachS slots
    (slotStep userOp sender' entities entitySlots entityTitle entStakes a writes')
    requireStakeSlot =
    Ok (match last slots with
        | Some slot => Some slot
        | None => requireStakeSlot
        end).
Proof.
  revert requireStakeSlot.
  induction slots as [|slot slots IH]; intros rss Hall; cbn [forEachS]; [reflexivity|].
  destruct (Hall slot (or_introl eq_refl)) as [Hs He].
  unfold slotStep at 2. rewrite Hs. cbn [mbind Result_bind]. rewrite He.
  cbn [mbind Result_bind]. rewrite IH by (intros; apply Hall; now right).
  destruct slots as [|slot' slots]; [reflexivity|].
  rewrite last_cons_cons. destruct (last (slot' :: slots)) eqn:El; [reflexivity|].
  apply last_None in El. discriminate.
Qed.

(** X19. An entry of the access map at an address that is neither the
    sender nor the entry point, all of whose slots belong to the entity
    (under the address of its stake record) and not to the sender, passes
    for a staked entity and otherwise raises "unstaked <entity> accessed
    <address> slot <slot>" with the last slot scanned, the reads coming
    after the writes. *)
Theorem checkAccess_entity_slots (userOp : UserOperation) (ep sender' : string)
    (entities : JSObject (option StakeInfo)) (entitySlots : gmap string (list string))
    (entityTitle : string) (info : StakeInfo)
    (access' : JSObject AccessInfo) (entry : string * AccessInfo) (lastSlot : string) :
  entry.1 <> sender' ->
  entry.1 <> ep ->
  let slots := keys (writes entry.2) ++ keys (reads entry.2) in
  (forall slot, In slot slots ->
     associatedWith slot sender' entitySlots = Ok false /\
     associatedWith slot (addr info) entitySlots = Ok true) ->
  last slots = Some lastSlot ->
  (Staked info ->
   checkAccess userOp ep sender' entities entitySlots entityTitle (Some info) access'
     entry = Ok tt) /\
  (forall s d,
     BigNumber_value (stake info) = Some s ->
     BigNumber_value (unstakeDelaySec info) = Some d ->
     ~ (1 < s /\ 1 < d) ->
     checkAccess userOp ep sender' entities entitySlots entityTitle (Some info) access'
       entry =
       Throw (RpcError
                ("unstaked " +:+ entityTitle +:+ " accessed "
                   +:+ nameAddr entities entry.1 +:+ " slot " +:+ lastSlot)
                OpcodeValidation (Some (entityTitle, Some (addr info))))).
Proof.
  intros Hns Hne slots Hall Hlast. unfold checkAccess, seq.
  rewrite (proj2 (String.eqb_neq _ _) Hns), (proj2 (String.eqb_neq _ _) Hne).
  fold slots. rewrite forEachS_entity_slots by exact Hall.
  rewrite Hlast. cbn [mbind Result_bind isSome tpl]. split.
  - intros Hst. now apply requireCondAndStake_staked.
  - intros s d Hs Hd Hn. now apply requireCondAndStake_unstaked with (s := s) (d := d).
Qed.

End PolicyProperties.

(** ** The further properties on concrete inputs *)

(** X2 on a call of [token] that returns at once. *)
Lemma callStep_enter_exit_witness :
  exists entry,
    callStep (H := Scenario.externals)
      (callStep (H := Scenario.externals) ([], []) Examples.callToken)
      (Scenario.leave "RETURN" "0x") = ([] ++ [entry], []) /\
    ResolvedFrom Examples.callToken entry /\
    (call_value entry <> None -> call_value entry = ev_value Examples.callToken).
Proof.
  apply (callStep_enter_exit (H := Scenario.externals) [] [] Examples.callToken
           (Scenario.leave "RETURN" "0x")); reflexivity.
Defined.

(** X3 on the reverted call of [traceWithValue]. *)
Lemma parseCallStack_entries_witness :
  (call_return Examples.revertedCall = None <->
   call_revert Examples.revertedCall <> None) /\
  (call_value Examples.revertedCall <> None ->
   call_revert Examples.revertedCall <> None /\
   contains "CREATE" (call_type Examples.revertedCall) = false) /\
  (contains "CREATE" (call_type Examples.revertedCall) = true ->
   call_method Examples.revertedCall = Some "" /\
   call_revert Examples.revertedCall = None).
Proof.
  apply (parseCallStack_entries (H := Scenario.externals) Scenario.traceWithValue).
  vm_compute. left. reflexivity.
Defined.

(** X4 on the reverted call of [traceWithValue]. *)
Lemma parseCallStack_origin_witness :
  (ResolvedFrom top_frame Examples.revertedCall /\
   call_value Examples.revertedCall = None) \/
  (exists c, In c (traceEvents Scenario.traceWithValue) /\ isExit c = false /\
             ResolvedFrom c Examples.revertedCall /\
             (call_value Examples.revertedCall <> None ->
              call_value Examples.revertedCall = ev_value c)).
Proof.
  apply (parseCallStack_origin (H := Scenario.externals) Scenario.traceWithValue).
  vm_compute. left. reflexivity.
Defined.

(** X5 on the two levels of [traceTwoLevels]. *)
Lemma parseCallStack_app_witness :
  parseCallStack (H := Scenario.externals)
    (withLevels Scenario.traceTwoLevels
       ([Examples.levelOfAccount] ++ [Examples.levelOfPaymaster])) =
    parseCallStack (H := Scenario.externals)
      (withLevels Scenario.traceTwoLevels [Examples.levelOfAccount]) ++
    parseCallStack (H := Scenario.externals)
      (withLevels Scenario.traceTwoLevels [Examples.levelOfPaymaster]).
Proof.
  apply (proj2 (parseCallStack_app (H := Scenario.externals) Scenario.traceTwoLevels
                  [Examples.levelOfAccount] [Examples.levelOfPaymaster])).
  reflexivity.
Defined.

(** X17 on a creation inside a call. *)
Lemma callStep_nested_witness :
  exists entryInner entryOuter,
    fold_left (callStep (H := Scenario.externals))
      [Examples.callToken; Examples.createChild;
       Scenario.leave "RETURN" "0x6080"; Scenario.leave "REVERT" "0x"] ([], []) =
      ([] ++ [entryInner; entryOuter], []) /\
    ResolvedFrom Examples.createChild entryInner /\
    ResolvedFrom Examples.callToken entryOuter.
Proof.
  apply (callStep_nested (H := Scenario.externals) [] [] Examples.callToken
           Examples.createChild (Scenario.leave "RETURN" "0x6080")
           (Scenario.leave "REVERT" "0x")); reflexivity.
Defined.

(** X6 on one preimage of the account. *)
Lemma parseEntitySlots_sets_witness :
  (forall a, List.NoDup (slotsOf Scenario.accountSlots a)) /\
  (forall a, Scenario.accountSlots !! a <> None ->
             exists info, In (Some info) (values Scenario.entities) /\
                          a = toLowerCase (addr info)) /\
  ([Scenario.balancePreimage] = [] -> Scenario.accountSlots = ∅) /\
  ([Scenario.balancePreimage] <> [] ->
   forall info, In (Some info) (values Scenario.entities) ->
                Scenario.accountSlots !! toLowerCase (addr info) <> None).
Proof.
  apply (parseEntitySlots_sets (H := Scenario.externals) Scenario.entities
           [Scenario.balancePreimage] Scenario.accountSlots).
  vm_compute. reflexivity.
Defined.

(** X7 on one preimage of the account and on two. *)
Lemma parseEntitySlots_monotone_witness :
  In Scenario.balanceSlot (slotsOf Examples.moreSlots Scenario.account).
Proof.
  apply (parseEntitySlots_monotone (H := Scenario.externals) Scenario.entities
           [Scenario.balancePreimage]
           [Scenario.balancePreimage; Examples.shortPreimage]
           Scenario.accountSlots Examples.moreSlots).
  - vm_compute. reflexivity.
  - vm_compute. reflexivity.
  - intros k [<-|[]]. left. reflexivity.
  - left. reflexivity.
Defined.

(** X8 on a histogram with a timestamp read after a storage read. *)
Lemma checkBannedOpcodes_first_witness :
  checkBannedOpcodes "account" [("SLOAD", 3); ("TIMESTAMP", 1); ("GAS", 2)] =
    Throw (RpcError ("account" +:+ " uses banned opcode: " +:+ "TIMESTAMP")
             OpcodeValidation None).
Proof.
  apply (proj2 (checkBannedOpcodes_first "account"
                  [("SLOAD", 3); ("TIMESTAMP", 1); ("GAS", 2)])
           ["SLOAD"] "TIMESTAMP" ["GAS"]).
  - reflexivity.
  - intros o [<-|[]]. vm_compute. intuition discriminate.
  - vm_compute. tauto.
Defined.

(** X9 on the run with two levels. *)
Lemma parseScannerResult_Ok_shape_witness :
  let ep := toLowerCase Scenario.entryPoint in
  let callStack := parseCallStack (H := Scenario.externals) Scenario.traceTwoLevels in
  callsFromEntryPoint Scenario.traceTwoLevels <> [] /\
  (exists level,
     entityLevel (H := Scenario.externals) "account"
       (callsFromEntryPoint Scenario.traceTwoLevels) = Some level) /\
  (forall call, In call callStack -> ~ IllegalEntryPointCall ep call) /\
  (exists call, In call callStack /\ call_to call <> Some ep).
Proof.
  apply (parseScannerResult_Ok_shape (H := Scenario.externals) Scenario.plainOp
           Scenario.traceTwoLevels Scenario.withPaymaster Scenario.entryPoint
           ([Scenario.account; Scenario.token; Scenario.paymaster; Scenario.token],
            {[ Scenario.token := Scenario.readsOfAccount ]})).
  vm_compute. reflexivity.
Defined.

(** X10 on the account's level of the run with two levels. *)
Lemma parseScannerResult_Ok_levels_witness :
  oog Examples.levelOfAccount <> Some true /\
  (forall opcode, In opcode (keys (opcodes Examples.levelOfAccount)) ->
                  ~ In opcode bannedOpCodes) /\
  ("account" = "factory" ->
   default 0 (get (opcodes Examples.levelOfAccount) "CREATE2") <= 1) /\
  ("account" <> "factory" -> ~ In "CREATE2" (keys (opcodes Examples.levelOfAccount))) /\
  (forall a n, get (contractSize Examples.levelOfAccount) a = Some n ->
               a <> toLowerCase (sender Scenario.plainOp) -> 2 < n).
Proof.
  apply (parseScannerResult_Ok_levels (H := Scenario.externals) Scenario.plainOp
           Scenario.traceTwoLevels Scenario.withPaymaster Scenario.entryPoint
           ([Scenario.account; Scenario.token; Scenario.paymaster; Scenario.token],
            {[ Scenario.token := Scenario.readsOfAccount ]})
           "account" Examples.levelOfAccount).
  - vm_compute. reflexivity.
  - right. left. reflexivity.
  - vm_compute. reflexivity.
Defined.

(** X11 on the account's balance in [token], for an entity with no stake
    record. *)
Lemma checkAccess_passes_witness :
  checkAccess (H := Scenario.externals) Scenario.plainOp Scenario.entryPoint
    Scenario.account Scenario.entities Scenario.accountSlots "paymaster" None []
    Examples.balanceEntry = Ok tt.
Proof.
  apply (proj1 (checkAccess_passes (H := Scenario.externals) Scenario.plainOp
                  Scenario.entryPoint Scenario.account Scenario.entities
                  Scenario.accountSlots "paymaster" None [] Examples.balanceEntry
                  ltac:(discriminate) ltac:(discriminate))).
  right. split.
  - simpl. lia.
  - intros slot [<-|[]]. vm_compute. reflexivity.
Defined.

(** X12 on a written slot of [token] that belongs to nobody, for a staked
    account: the message says "read from". *)
Lemma checkAccess_forbidden_witness :
  checkAccess (H := Scenario.externals) Scenario.plainOp Scenario.entryPoint
    Scenario.account Scenario.entities Scenario.accountSlots "account"
    (Some (Scenario.info Scenario.account 5 5)) [] Examples.foreignEntry =
    Throw (RpcError
             ("account" +:+ " has forbidden "
                +:+ (if includes (keys (writes Examples.foreignEntry.2))
                          Examples.foreignEntry.1
                     then "write to" else "read from")
                +:+ " " +:+ nameAddr Scenario.entities Examples.foreignEntry.1
                +:+ " slot " +:+ "0x02")
             OpcodeValidation
             (Some ("account", addr <$> Some (Scenario.info Scenario.account 5 5)))).
Proof.
  apply (checkAccess_forbidden (H := Scenario.externals) Scenario.plainOp
           Scenario.entryPoint Scenario.account Scenario.entities
           Scenario.accountSlots "account" (Some (Scenario.info Scenario.account 5 5))
           [] Examples.foreignEntry [] ["0x01"] "0x02").
  - discriminate.
  - discriminate.
  - discriminate.
  - reflexivity.
  - intros s [].
  - vm_compute. reflexivity.
  - vm_compute. reflexivity.
Defined.

(** X13 on a level that touches no storage, for an account with no stake. *)
Lemma checkEntity_clean_witness :
  checkEntity (H := Scenario.externals) Scenario.plainOp Scenario.entryPoint
    Scenario.account
    (parseCallStack (H := Scenario.externals) Scenario.traceWithValue)
    Scenario.entities ∅ "account" (Some (Scenario.info Scenario.account 0 0))
    [Examples.plainLevel] = Ok tt.
Proof.
  apply (checkEntity_clean (H := Scenario.externals) Scenario.plainOp
           Scenario.entryPoint Scenario.account
           (parseCallStack (H := Scenario.externals) Scenario.traceWithValue)
           Scenario.entities ∅ "account" (Some (Scenario.info Scenario.account 0 0))
           [Examples.plainLevel] Examples.plainLevel).
  - vm_compute. reflexivity.
  - split; [discriminate|]. split; [|split; [|split; [|split]]].
    + intros opcode [<-|[]]. vm_compute. intuition discriminate.
    + vm_compute. intuition discriminate.
    + intros a [].
    + discriminate.
    + intros a n Hg _. apply get_Some_pair in Hg.
      destruct Hg as [[= <- <-]|[]]. lia.
Defined.

(** X14 on a call stack whose only call is a deposit to the entry point. *)
Lemma checkCallWithValue_targets_witness :
  checkCallWithValue Scenario.entryPoint [Examples.depositCall] =
    Throw (RpcError "May not may CALL with value" OpcodeValidation None).
Proof.
  refine (proj2 (checkCallWithValue_targets Scenario.entryPoint
                   [Examples.depositCall] _) _).
  - constructor; [exists 0; reflexivity | constructor].
  - intros call [<-|[]]. reflexivity.
Defined.

(** X15 on the trace whose account calls [token] with a value. *)
Lemma parseScannerResult_accepts_witness :
  parseScannerResult (H := Scenario.externals) Scenario.plainOp
    Scenario.traceWithValue Scenario.unstakedAccount Scenario.entryPoint =
    Ok (collectAddresses (callsFromEntryPoint Scenario.traceWithValue),
        buildStorageMap (callsFromEntryPoint Scenario.traceWithValue)).
Proof.
  apply (parseScannerResult_accepts (H := Scenario.externals) Scenario.plainOp
           Scenario.traceWithValue Scenario.unstakedAccount Scenario.entryPoint).
  - eexists. vm_compute. reflexivity.
  - intros e level [<-|[<-|[<-|[]]]] Hl; vm_compute in Hl; try discriminate Hl.
    injection Hl as <-.
    split; [discriminate|]. split; [|split; [|split; [|split]]].
    + intros opcode [<-|[]]. vm_compute. intuition discriminate.
    + vm_compute. intuition discriminate.
    + intros a [].
    + discriminate.
    + intros a n Hg _. apply get_Some_pair in Hg.
      destruct Hg as [[= <- <-]|[]]. lia.
  - intros call [<-|[<-|[]]] (Hto & _); vm_compute in Hto; discriminate Hto.
  - eexists. split; [left; reflexivity|]. vm_compute. discriminate.
  - apply List.Forall_forall. intros call [<-|[<-|[]]]; [exists 5 | exists 0]; reflexivity.
  - intros info [[=]|[[= <-]|[[=]|[]]]]. eexists. vm_compute. reflexivity.
  - intros k info p [].
Defined.

(** ** The revised claims on concrete inputs *)



(** C10, where the code departs from it. The paymaster is staked and its
    level reads, in [token], the slot after the slot [0xaa130] that was
    hashed from its padded address. With the record's address in lower
    case the run returns; with the same address written with an upper-case
    digit the slot set is still kept under the lower-case address, the
    lookup under the record's address finds nothing, and the run raises a
    forbidden read. *)
Theorem C10_record_address_case :
  parseEntitySlots (H := Scenario.externals)
    (stakeInfoEntitiesOf (Examples.stakedPaymaster Examples.paymasterChecksum))
    (keccak Examples.tracePaymasterSlot) = Ok Examples.slotsOfBoth /\
  BigNumber_value (BNstring "0xaa130") = Some 696624 /\
  BigNumber_value (BNstring "0xaa131") = Some 696625 /\
  associatedWith "0xaa131" Scenario.paymaster Examples.slotsOfBoth = Ok true /\
  associatedWith "0xaa131" Examples.paymasterChecksum Examples.slotsOfBoth = Ok false /\
  parseScannerResult (H := Scenario.externals) Scenario.plainOp
    Examples.tracePaymasterSlot (Examples.stakedPaymaster Scenario.paymaster)
    Scenario.entryPoint =
    Ok ([Scenario.account; Scenario.paymaster; Scenario.token],
        {[ Scenario.token := [("0xaa131", "0x00")] ]}) /\
  parseScannerResult (H := Scenario.externals) Scenario.plainOp
    Examples.tracePaymasterSlot (Examples.stakedPaymaster Examples.paymasterChecksum)
    Scenario.entryPoint =
    Throw (RpcError
             ("paymaster has forbidden read from "
                +:+ "0x00000000000000000000000000000000000000c3" +:+ " slot 0xaa131")
             OpcodeValidation (Some ("paymaster", Some Examples.paymasterChecksum))).
Proof.
  repeat split; vm_compute; reflexivity.
Qed.

(** X18 on the slot 127 above the account's balance slot. *)
Lemma associatedWith_range_witness :
  associatedWith "0xaa1af" Scenario.account Scenario.accountSlots = Ok true <->
  "0xaa1af" =
    toLowerCase "0x00000000000000000000000000000000000000000000000000000000000000a1" \/
  exists k1 kn, In k1 (slotsOf Scenario.accountSlots Scenario.account) /\
                BigNumber_value (BNstring k1) = Some kn /\ kn <= 696751 < kn + 128.
Proof.
  apply (proj1 (associatedWith_range "0xaa1af"
                  Scenario.account Scenario.accountSlots
                  "0x00000000000000000000000000000000000000000000000000000000000000a1"
                  696751 eq_refl eq_refl eq_refl)).
Defined.

(** X19 on the slot after the paymaster's balance slot, for a paymaster
    with a stake of 1. *)
Lemma checkAccess_entity_slots_witness :
  checkAccess (H := Scenario.externals) Scenario.plainOp Scenario.entryPoint
    Scenario.account Scenario.entities Examples.paymasterSlots "paymaster"
    (Some (Scenario.info Scenario.paymaster 1 1)) [] Examples.slotAfterEntry =
    Throw (RpcError
             ("unstaked " +:+ "paymaster" +:+ " accessed "
                +:+ nameAddr Scenario.entities Examples.slotAfterEntry.1
                +:+ " slot " +:+ "0xaa131")
             OpcodeValidation
             (Some ("paymaster", Some (addr (Scenario.info Scenario.paymaster 1 1))))).
Proof.
  refine (proj2 (checkAccess_entity_slots (H := Scenario.externals) Scenario.plainOp
                   Scenario.entryPoint Scenario.account Scenario.entities
                   Examples.paymasterSlots "paymaster"
                   (Scenario.info Scenario.paymaster 1 1) [] Examples.slotAfterEntry
                   "0xaa131" _ _ _ _) 1 1 _ _ _).
  - discriminate.
  - discriminate.
  - intros slot [<-|[]]. split; vm_compute; reflexivity.
  - reflexivity.
  - reflexivity.
  - reflexivity.
  - lia.
Defined.
